(** * Stream mapping of mono input tracks: a shallow embedding

    Embedding of [python/src/audio_manipulations/stream_mapping_mono_input_tracks.py].

    The script builds request objects, submits them to the remote encoding
    service and polls the status of the encoding.  The embedding keeps the
    request objects as records, the enumerations of the SDK as inductive types,
    and runs the script in a state monad over a [World] that records, in
    order, every remote call, every sleep and every printed line.  What the
    remote service answers is given by a [Service]: the identifier of the
    n-th resource it creates and the task it returns to the n-th status
    request.  A remote call that raises inside the SDK is outside the model:
    every call that is sent is answered.  What the SDK checks when the script
    builds a request object is modelled where the script can fail it: the
    [position] of an [IngestInputStream] must not be negative. *)

From Stdlib Require Import String Ascii List ZArith Bool Arith Lia.
Import ListNotations.
Local Open Scope string_scope.
Local Open Scope list_scope.

(** ** Enumerations of the SDK used by the script *)

Inductive AudioMixChannelType :=
| FRONT_LEFT | FRONT_RIGHT | BACK_LEFT | BACK_RIGHT | CENTER | LOW_FREQUENCY.

Inductive AudioMixInputChannelLayout := CL_STEREO | CL_5_1_BACK.

Inductive AudioMixSourceChannelType := CHANNEL_NUMBER.

Inductive StreamSelectionMode := AUTO | AUDIO_RELATIVE.

Inductive StreamMode := STANDARD.

Inductive PresetConfiguration := VOD_STANDARD.

Inductive DolbyDigitalChannelLayout := CL_5_1.

Inductive AclPermission := PUBLIC_READ.

(** The states of a task.  The script tells [FINISHED] and [ERROR] from
    everything else. *)
Inductive Status :=
| CREATED | QUEUED | RUNNING | FINISHED | ERROR | CANCELED | TRANSFER_ERROR.

Scheme Equality for Status.

Inductive MessageType := MT_INFO | MT_ERROR | MT_WARNING | MT_DEBUG | MT_TRACE.

(** ** Request and response objects *)

(** [class ChannelMappingConfig]: the mapping from a source channel to an
    output channel. *)
Record ChannelMappingConfig := mkChannelMappingConfig {
  output_channel_type : AudioMixChannelType;
  source_channel_number : Z
}.

Record IngestInputStream := mkIngestInputStream {
  iis_input_id : string;
  iis_input_path : string;
  iis_selection_mode : StreamSelectionMode;
  iis_position : option Z
}.

Record AudioMixInputStreamSourceChannel := mkSourceChannel {
  sc_type_ : AudioMixSourceChannelType;
  sc_channel_number : Z
}.

Record AudioMixInputStreamChannel := mkMixChannel {
  mc_input_stream_id : string;
  mc_output_channel_type : AudioMixChannelType;
  mc_source_channels : list AudioMixInputStreamSourceChannel
}.

Record AudioMixInputStream := mkAudioMix {
  am_channel_layout : AudioMixInputChannelLayout;
  am_audio_mix_channels : list AudioMixInputStreamChannel
}.

Record Encoding := mkEncoding {
  enc_name : string;
  enc_description : string
}.

Record HttpInput := mkHttpInput { hi_host : string }.

Record S3Output := mkS3Output {
  s3_bucket_name : string;
  s3_access_key : string;
  s3_secret_key : string
}.

Record H264VideoConfiguration := mkH264 {
  h264_name : string;
  h264_height : Z;
  h264_bitrate : Z;
  h264_preset_configuration : PresetConfiguration
}.

Record AacAudioConfiguration := mkAac {
  aac_name : string;
  aac_bitrate : Z
}.

Record DolbyDigitalAudioConfiguration := mkDolbyDigital {
  dd_name : string;
  dd_bitrate : Z;
  dd_channel_layout : DolbyDigitalChannelLayout
}.

Record StreamInput := mkStreamInput { si_input_stream_id : string }.

Record Stream := mkStream {
  st_input_streams : list StreamInput;
  st_codec_config_id : string;
  st_mode : StreamMode
}.

Record AclEntry := mkAclEntry { acl_permission : AclPermission }.

Record EncodingOutput := mkEncodingOutput {
  eo_output_path : string;
  eo_output_id : string;
  eo_acl : list AclEntry
}.

Record MuxingStream := mkMuxingStream { ms_stream_id : string }.

Record Mp4Muxing := mkMp4Muxing {
  mux_outputs : list EncodingOutput;
  mux_filename : string;
  mux_streams : list MuxingStream
}.

Record Message := mkMessage {
  msg_type : MessageType;
  msg_text : string
}.

(** A task as the status endpoint returns it.  Every attribute of an SDK
    model may be unset, so [status] and [progress] are optional; [messages]
    is always a list. *)
Record Task := mkTask {
  status : option Status;
  progress : option Z;
  messages : list Message
}.

(** ** The world the script acts on *)

(** The requests the script sends through [bitmovin_api]. *)
Inductive ApiCall :=
| EncodingsCreate (encoding : Encoding)
| InputsHttpCreate (http_input : HttpInput)
| OutputsS3Create (s3_output : S3Output)
| ConfigurationsH264Create (config : H264VideoConfiguration)
| ConfigurationsAacCreate (config : AacAudioConfiguration)
| ConfigurationsDolbyDigitalCreate (config : DolbyDigitalAudioConfiguration)
| InputStreamsIngestCreate (encoding_id : string) (ingest_input_stream : IngestInputStream)
| InputStreamsAudioMixCreate (encoding_id : string) (audio_mix_input_stream : AudioMixInputStream)
| StreamsCreate (encoding_id : string) (stream : Stream)
| MuxingsMp4Create (encoding_id : string) (mp4_muxing : Mp4Muxing)
| EncodingsStart (encoding_id : string)
| EncodingsStatus (encoding_id : string).

(** What [print] writes.  The status line is
    ["Encoding status is {} (progress: {} %)".format(task.status, task.progress)];
    it is kept with its two arguments instead of their rendering. *)
Inductive Printed :=
| StatusLine (st : option Status) (pr : option Z)
| Line (text : string).

Inductive Event :=
| Call (c : ApiCall)
| Sleep (seconds : Z)
| Print (p : Printed).

(** The answers of the remote service: the identifier given to the n-th
    resource it creates, and the task returned by the n-th status request
    (both counted from 0). *)
Record Service := mkService {
  resource_id : nat -> string;
  status_response : nat -> Task
}.

(** The values read from [config_provider], and the clock reading that
    [EXAMPLE_NAME] is built from. *)
Record Config := mkConfig {
  get_http_input_host : string;
  get_http_input_file_path_with_multiple_mono_audio_tracks : string;
  get_s3_output_bucket_name : string;
  get_s3_output_access_key : string;
  get_s3_output_secret_key : string;
  get_s3_output_base_path : string;
  now_isoformat : string
}.

Record World := mkWorld {
  created : nat;
  polled : nat;
  trace : list Event
}.

Definition initial_world : World := mkWorld 0 0 [].

(** ** The monad: state, exceptions, and fuel for the polling loop *)

Inductive Result (A : Type) :=
| Ok (a : A)
| Raised (e : string)
| OutOfFuel.
Arguments Ok {A} a.
Arguments Raised {A} e.
Arguments OutOfFuel {A}.

Definition M (A : Type) : Type := World -> Result A * World.

Definition ret {A} (a : A) : M A := fun w => (Ok a, w).

Definition bind {A B} (m : M A) (k : A -> M B) : M B :=
  fun w =>
    match m w with
    | (Ok a, w') => k a w'
    | (Raised e, w') => (Raised e, w')
    | (OutOfFuel, w') => (OutOfFuel, w')
    end.

Definition raise {A} (e : string) : M A := fun w => (Raised e, w).

Definition out_of_fuel {A} : M A := fun w => (OutOfFuel, w).

Notation "x <- m ;; k" := (bind m (fun x => k))
  (at level 61, m at next level, right associativity).
Notation "m ;;; k" := (bind m (fun _ => k))
  (at level 61, right associativity).

Definition emit (e : Event) : M unit :=
  fun w => (Ok tt, mkWorld (created w) (polled w) (trace w ++ [e])).

Definition print (p : Printed) : M unit := emit (Print p).

Definition sleep (seconds : Z) : M unit := emit (Sleep seconds).

(** ** [os.path.join] and the output path *)

Definition startswith (s pre : string) : bool := String.prefix pre s.

Fixpoint endswith_sep (s : string) : bool :=
  match s with
  | EmptyString => false
  | String c EmptyString => Ascii.eqb c "/"%char
  | String _ rest => endswith_sep rest
  end.

(** One round of the loop of [posixpath.join]: a component that starts with
    the separator replaces what was joined so far. *)
Definition join_step (path b : string) : string :=
  if startswith b "/" then b
  else if (String.eqb path "" || endswith_sep path)%bool then path ++ b
  else path ++ "/" ++ b.

Definition path_join (a : string) (p : list string) : string :=
  fold_left join_step p a.

(** ** The check of [IngestInputStream.position] *)

(** The message of the [ValueError] that the SDK's [IngestInputStream] raises
    when it is given a negative [position]. *)
Definition position_error : string :=
  "Invalid value for `position`, must be a value greater than or equal to `0`".

Section Script.

Variable config_provider : Config.
Variable bitmovin_api : Service.

Definition EXAMPLE_NAME : string :=
  "StreamMappingMonoInputTracks-" ++ now_isoformat config_provider.

Definition _build_absolute_path (relative_path : string) : string :=
  path_join (get_s3_output_base_path config_provider) [EXAMPLE_NAME; relative_path].

(** *** Remote calls *)

(** A creation request: the service answers with the created resource, of
    which the script reads the [id] only.  Below, a parameter or variable
    that holds such a resource ([encoding], [input], [output], a stream, a
    codec configuration) holds its [id]. *)
Definition create (c : ApiCall) : M string :=
  fun w =>
    (Ok (resource_id bitmovin_api (created w)),
     mkWorld (S (created w)) (polled w) (trace w ++ [Call c])).

Definition encodings_start (encoding_id : string) : M unit :=
  emit (Call (EncodingsStart encoding_id)).

Definition encodings_status (encoding_id : string) : M Task :=
  fun w =>
    (Ok (status_response bitmovin_api (polled w)),
     mkWorld (created w) (S (polled w)) (trace w ++ [Call (EncodingsStatus encoding_id)])).

(** *** Resource provisioning *)

Definition _create_encoding (name description : string) : M string :=
  let encoding := mkEncoding name description in
  create (EncodingsCreate encoding).

Definition _create_http_input (host : string) : M string :=
  let http_input := mkHttpInput host in
  create (InputsHttpCreate http_input).

Definition _create_s3_output (bucket_name access_key secret_key : string) : M string :=
  let s3_output := mkS3Output bucket_name access_key secret_key in
  create (OutputsS3Create s3_output).

Definition _create_h264_video_configuration : M string :=
  let config := mkH264 "H.264 1080p @ 1.5 Mbit/S" 1080 1500000 VOD_STANDARD in
  create (ConfigurationsH264Create config).

Definition _create_aac_audio_configuration : M string :=
  let config := mkAac "AAC Audio @ 128 kbit/s" 128000 in
  create (ConfigurationsAacCreate config).

Definition _create_dd_surround_audio_configuration : M string :=
  let config := mkDolbyDigital "Dolby Digital Channel Layout 5.1" 256000 CL_5_1 in
  create (ConfigurationsDolbyDigitalCreate config).

Definition _create_ingest_input_stream (encoding input input_path : string) : M string :=
  let ingest_input_stream := mkIngestInputStream input input_path AUTO None in
  create (InputStreamsIngestCreate encoding ingest_input_stream).

(** [IngestInputStream(..., position=position)] raises [ValueError] on a
    negative position, before any request is sent. *)
Definition _create_ingest_input_stream_for_audio_track
    (encoding input input_path : string) (position : Z) : M string :=
  if (position <? 0)%Z then raise position_error
  else
    let ingest_input_stream :=
      mkIngestInputStream input input_path AUDIO_RELATIVE (Some position) in
    create (InputStreamsIngestCreate encoding ingest_input_stream).

(** *** Stream assembly *)

(** [output_channel.source_channels.append(source_channel)] *)
Definition append_source_channel
    (output_channel : AudioMixInputStreamChannel)
    (source_channel : AudioMixInputStreamSourceChannel) : AudioMixInputStreamChannel :=
  mkMixChannel (mc_input_stream_id output_channel)
               (mc_output_channel_type output_channel)
               (mc_source_channels output_channel ++ [source_channel]).

(** [audio_mix_input_stream.audio_mix_channels.append(output_channel)] *)
Definition append_audio_mix_channel
    (audio_mix_input_stream : AudioMixInputStream)
    (output_channel : AudioMixInputStreamChannel) : AudioMixInputStream :=
  mkAudioMix (am_channel_layout audio_mix_input_stream)
             (am_audio_mix_channels audio_mix_input_stream ++ [output_channel]).

(** The [for mapping_config in mapping_configs] loop of
    [_create_audio_mix_input_stream]. *)
Fixpoint for_mapping_configs
    (encoding input input_file_path : string)
    (mapping_configs : list ChannelMappingConfig)
    (audio_mix_input_stream : AudioMixInputStream) : M AudioMixInputStream :=
  match mapping_configs with
  | [] => ret audio_mix_input_stream
  | mapping_config :: rest =>
      audio_ingest_input_stream <-
        _create_ingest_input_stream_for_audio_track
          encoding input input_file_path (source_channel_number mapping_config) ;;
      let output_channel :=
        mkMixChannel audio_ingest_input_stream (output_channel_type mapping_config) [] in
      let source_channel := mkSourceChannel CHANNEL_NUMBER 0 in
      let output_channel := append_source_channel output_channel source_channel in
      for_mapping_configs encoding input input_file_path rest
        (append_audio_mix_channel audio_mix_input_stream output_channel)
  end.

(** The mixed stream as it is when the loop is over, before it is sent. *)
Definition build_audio_mix_input_stream
    (encoding input input_file_path : string)
    (channel_layout : AudioMixInputChannelLayout)
    (mapping_configs : list ChannelMappingConfig) : M AudioMixInputStream :=
  let audio_mix_input_stream := mkAudioMix channel_layout [] in
  for_mapping_configs encoding input input_file_path mapping_configs audio_mix_input_stream.

Definition _create_audio_mix_input_stream
    (encoding input input_file_path : string)
    (channel_layout : AudioMixInputChannelLayout)
    (mapping_configs : list ChannelMappingConfig) : M string :=
  audio_mix_input_stream <-
    build_audio_mix_input_stream encoding input input_file_path channel_layout mapping_configs ;;
  create (InputStreamsAudioMixCreate encoding audio_mix_input_stream).

Definition _create_stream (encoding input_stream codec_configuration : string) : M string :=
  let stream_input := mkStreamInput input_stream in
  let stream := mkStream [stream_input] codec_configuration STANDARD in
  create (StreamsCreate encoding stream).

(** *** Muxing *)

Definition _build_encoding_output (output output_path : string) : EncodingOutput :=
  let acl_entry := mkAclEntry PUBLIC_READ in
  mkEncodingOutput (_build_absolute_path output_path) output [acl_entry].

(** The [for stream in streams] loop of [_create_mp4_muxing]. *)
Fixpoint for_streams (streams : list string) (muxing : Mp4Muxing) : Mp4Muxing :=
  match streams with
  | [] => muxing
  | stream :: rest =>
      let muxing_stream := mkMuxingStream stream in
      for_streams rest
        (mkMp4Muxing (mux_outputs muxing) (mux_filename muxing)
                     (mux_streams muxing ++ [muxing_stream]))
  end.

Definition build_mp4_muxing
    (output output_path : string) (streams : list string) (file_name : string) : Mp4Muxing :=
  let muxing := mkMp4Muxing [_build_encoding_output output output_path] file_name [] in
  for_streams streams muxing.

Definition _create_mp4_muxing
    (encoding output output_path : string) (streams : list string) (file_name : string)
    : M string :=
  create (MuxingsMp4Create encoding (build_mp4_muxing output output_path streams file_name)).

(** *** Job lifecycle *)

Definition _wait_for_enoding_to_finish (encoding_id : string) : M Task :=
  sleep 5 ;;;
  task <- encodings_status encoding_id ;;
  print (StatusLine (status task) (progress task)) ;;;
  ret task.

(** [task.status is s]: the members of an enumeration are singletons, so
    identity is equality; an unset status is no member. *)
Definition status_is (task : Task) (s : Status) : bool :=
  match status task with
  | Some s' => Status_beq s' s
  | None => false
  end.

Definition is_error_message (x : Message) : bool :=
  match msg_type x with MT_ERROR => true | _ => false end.

Fixpoint print_messages (filtered : list Message) : M unit :=
  match filtered with
  | [] => ret tt
  | message :: rest => print (Line (msg_text message)) ;;; print_messages rest
  end.

Definition _log_task_errors (task : option Task) : M unit :=
  match task with
  | None => ret tt
  | Some task =>
      let filtered := filter is_error_message (messages task) in
      print_messages filtered
  end.

(** The [while] loop of [_execute_encoding]; [fuel] bounds the number of
    times its body runs. *)
Fixpoint while_not_final (fuel : nat) (encoding_id : string) (task : Task) : M Task :=
  if (negb (status_is task FINISHED) && negb (status_is task ERROR))%bool then
    match fuel with
    | O => out_of_fuel
    | S fuel' =>
        task' <- _wait_for_enoding_to_finish encoding_id ;;
        while_not_final fuel' encoding_id task'
    end
  else ret task.

Definition _execute_encoding (fuel : nat) (encoding : string) : M unit :=
  encodings_start encoding ;;;
  task <- _wait_for_enoding_to_finish encoding ;;
  task <- while_not_final fuel encoding task ;;
  if status_is task ERROR then
    _log_task_errors (Some task) ;;;
    raise "Encoding failed"
  else
    print (Line "Encoding finished successfully").

(** *** The mapping tables and [main] *)

Definition stereo_map : list ChannelMappingConfig :=
  [ mkChannelMappingConfig FRONT_LEFT 0;
    mkChannelMappingConfig FRONT_RIGHT 1 ].

Definition surround_map : list ChannelMappingConfig :=
  [ mkChannelMappingConfig FRONT_LEFT 2;
    mkChannelMappingConfig FRONT_RIGHT 3;
    mkChannelMappingConfig BACK_LEFT 4;
    mkChannelMappingConfig BACK_RIGHT 5;
    mkChannelMappingConfig CENTER 6;
    mkChannelMappingConfig LOW_FREQUENCY 7 ].

(** [main] up to and including the creation of the muxing. *)
Definition main_setup : M string :=
  encoding <- _create_encoding
    "Audio Mapping - Stream Mapping - Multiple Mono Tracks"
    "Input with multiple mono tracks -> Output with stereo and surround tracks" ;;
  http_input <- _create_http_input (get_http_input_host config_provider) ;;
  output <- _create_s3_output
    (get_s3_output_bucket_name config_provider)
    (get_s3_output_access_key config_provider)
    (get_s3_output_secret_key config_provider) ;;
  h264_config <- _create_h264_video_configuration ;;
  aac_config <- _create_aac_audio_configuration ;;
  dd_config <- _create_dd_surround_audio_configuration ;;
  let input_file_path :=
    get_http_input_file_path_with_multiple_mono_audio_tracks config_provider in
  video_ingest_input_stream <- _create_ingest_input_stream encoding http_input input_file_path ;;
  stereo_mix_input_stream <-
    _create_audio_mix_input_stream encoding http_input input_file_path CL_STEREO stereo_map ;;
  surround_mix_input_stream <-
    _create_audio_mix_input_stream encoding http_input input_file_path CL_5_1_BACK surround_map ;;
  video_stream <- _create_stream encoding video_ingest_input_stream h264_config ;;
  audio_stream1 <- _create_stream encoding stereo_mix_input_stream aac_config ;;
  audio_stream2 <- _create_stream encoding surround_mix_input_stream dd_config ;;
  _create_mp4_muxing encoding output "/"
    [video_stream; audio_stream1; audio_stream2]
    "stereo-and-surround-tracks-mapped.mp4" ;;;
  ret encoding.

Definition main (fuel : nat) : M unit :=
  encoding <- main_setup ;;
  _execute_encoding fuel encoding.

End Script.

(** ** Reading a trace *)

(** The events a run added to the world it started from. *)
Definition events_since (w w' : World) : list Event :=
  skipn (length (trace w)) (trace w').

Definition ingest_requests (tr : list Event) : list IngestInputStream :=
  flat_map (fun e => match e with
                     | Call (InputStreamsIngestCreate _ r) => [r]
                     | _ => []
                     end) tr.

Definition audio_mix_requests (tr : list Event) : list AudioMixInputStream :=
  flat_map (fun e => match e with
                     | Call (InputStreamsAudioMixCreate _ r) => [r]
                     | _ => []
                     end) tr.

Definition stream_requests (tr : list Event) : list Stream :=
  flat_map (fun e => match e with
                     | Call (StreamsCreate _ r) => [r]
                     | _ => []
                     end) tr.

Definition mp4_requests (tr : list Event) : list Mp4Muxing :=
  flat_map (fun e => match e with
                     | Call (MuxingsMp4Create _ r) => [r]
                     | _ => []
                     end) tr.

Definition is_status_request (e : Event) : bool :=
  match e with Call (EncodingsStatus _) => true | _ => false end.

Definition is_sleep (e : Event) : bool :=
  match e with Sleep _ => true | _ => false end.

(** The number of status requests in a trace. *)
Definition polls (tr : list Event) : nat := length (filter is_status_request tr).

(** The texts printed with [print(message.text)] and the like: the printed
    lines other than status lines. *)
Definition printed_lines (tr : list Event) : list string :=
  flat_map (fun e => match e with Print (Line t) => [t] | _ => [] end) tr.

(** The creation requests of a trace, in order: the k-th of them (from the
    initial world) created the resource whose id is [resource_id _ k]. *)
Definition creations (tr : list Event) : list ApiCall :=
  flat_map (fun e => match e with
                     | Call (EncodingsStart _) | Call (EncodingsStatus _) => []
                     | Call c => [c]
                     | _ => []
                     end) tr.

(** A status sequence that starts with the tasks of [l] and goes on as
    [rest]. *)
Definition prepend (l : list Task) (rest : nat -> Task) : nat -> Task :=
  fun n => match nth_error l n with
           | Some t => t
           | None => rest (n - length l)
           end.

(** A status is final when the [while] loop of [_execute_encoding] stops on it. *)
Definition is_final (task : Task) : bool :=
  (status_is task FINISHED || status_is task ERROR)%bool.

(** ** Describing stream assembly *)

(** The invariant of a mapping table: no source track index is negative. *)
Definition valid_table (table : list ChannelMappingConfig) : Prop :=
  Forall (fun m => (0 <= source_channel_number m)%Z) table.

(** The ingest request stream assembly sends for one table entry. *)
Definition ingest_request_for (input input_path : string) (m : ChannelMappingConfig)
  : IngestInputStream :=
  mkIngestInputStream input input_path AUDIO_RELATIVE (Some (source_channel_number m)).

(** The assignment for one table entry, given the ingest reference [ref]. *)
Definition assignment_for (ref : string) (m : ChannelMappingConfig)
  : AudioMixInputStreamChannel :=
  mkMixChannel ref (output_channel_type m) [mkSourceChannel CHANNEL_NUMBER 0].

(** The ids the service gives to [n] resources created in a row, the first
    of them being its [k]-th. *)
Definition ids_from (svc : Service) (k n : nat) : list string :=
  map (resource_id svc) (seq k n).

Definition assignments (svc : Service) (k : nat) (table : list ChannelMappingConfig)
  : list AudioMixInputStreamChannel :=
  map (fun p => assignment_for (fst p) (snd p))
      (combine (ids_from svc k (length table)) table).

(** ** Describing the job lifecycle *)

(** The events of one poll that fetched [task]. *)
Definition poll_events (encoding : string) (task : Task) : list Event :=
  [Sleep 5; Call (EncodingsStatus encoding);
   Print (StatusLine (status task) (progress task))].

(** The events of [n] polls in a row, the first of them being the [k]-th
    status request the service answers. *)
Definition polls_events (svc : Service) (encoding : string) (k n : nat) : list Event :=
  flat_map (fun i => poll_events encoding (status_response svc i)) (seq k n).

(** The index, below [fuel], of the first final task among the answers from
    the [k]-th on. *)
Fixpoint find_final (svc : Service) (k fuel : nat) : option nat :=
  match fuel with
  | O => None
  | S fuel' =>
      if is_final (status_response svc k) then Some 0
      else option_map S (find_final svc (S k) fuel')
  end.

(** What [_execute_encoding] does once the loop stopped on [task]. *)
Definition report_events (task : Task) : list Event :=
  if status_is task ERROR
  then map (fun m => Print (Line (msg_text m))) (filter is_error_message (messages task))
  else [Print (Line "Encoding finished successfully")].

Definition report_result (task : Task) : Result unit :=
  if status_is task ERROR then Raised "Encoding failed" else Ok tt.

(** A status sequence whose first [n] tasks are running and all others
    finished. *)
Definition finished_after (n : nat) : nat -> Task :=
  fun i => if (i <? n)%nat then mkTask (Some RUNNING) None []
           else mkTask (Some FINISHED) None [].

(** The events of the job lifecycle: they create no resource. *)
Definition lifecycle_event (e : Event) : Prop :=
  match e with
  | Call (EncodingsStart _) | Call (EncodingsStatus _) | Sleep _ | Print _ => True
  | Call _ => False
  end.

(** A service that names its resources A, B, C, ... and whose tasks are
    always running. *)
Definition lettered_service : Service :=
  mkService (fun n => String (ascii_of_nat (65 + n)) "")
            (fun _ => mkTask (Some RUNNING) (Some 50%Z) []).

(** ** Further readings of a trace *)

Definition is_start_request (e : Event) : bool :=
  match e with Call (EncodingsStart _) => true | _ => false end.

(** The seconds slept in a trace, added up. *)
Definition slept (tr : list Event) : Z :=
  fold_right (fun e acc => match e with Sleep s => (s + acc)%Z | _ => acc end) 0%Z tr.

(** The status lines of a trace: the status and progress each one shows. *)
Definition status_lines (tr : list Event) : list (option Status * option Z) :=
  flat_map (fun e => match e with Print (StatusLine st pr) => [(st, pr)] | _ => [] end) tr.

(** The encoding a request is made under, for the requests that have one. *)
Definition call_encoding (c : ApiCall) : option string :=
  match c with
  | InputStreamsIngestCreate e _ | InputStreamsAudioMixCreate e _
  | StreamsCreate e _ | MuxingsMp4Create e _
  | EncodingsStart e | EncodingsStatus e => Some e
  | _ => None
  end.

(** Every request of the trace that is made under an encoding is made under
    [encoding]. *)
Definition under_encoding (encoding : string) (tr : list Event) : Prop :=
  Forall (fun e => match e with
                   | Call c => match call_encoding c with
                               | Some e' => e' = encoding
                               | None => True
                               end
                   | _ => True
                   end) tr.

(** The references to ingests a mixed stream holds, in order. *)
Definition mix_refs (mix : AudioMixInputStream) : list string :=
  map mc_input_stream_id (am_audio_mix_channels mix).

(** A configuration for concrete runs. *)
Definition sample_config : Config :=
  mkConfig "my-storage.biz" "/videos/mono-tracks.mov" "my-bucket-name"
           "access" "secret" "/outputs" "2024-05-06T07:08:09".

(** ** General lemmas *)

Lemma events_since_app (c p : nat) (tr new : list Event) (w : World) :
  trace w = tr ->
  events_since w (mkWorld c p (tr ++ new)) = new.
Proof.
  intros <-. unfold events_since. cbn [trace].
  rewrite skipn_app, skipn_all, Nat.sub_diag. reflexivity.
Qed.

Lemma string_app_assoc (a b c : string) :
  ((a ++ b) ++ c = a ++ (b ++ c))%string.
Proof. induction a as [|x a IH]; [reflexivity|]. cbn. now rewrite IH. Qed.

Lemma endswith_sep_app (s : string) (c : ascii) (t : string) :
  endswith_sep (s ++ String c t) = endswith_sep (String c t).
Proof.
  induction s as [|a s IH]; [reflexivity|].
  change (endswith_sep (String a (s ++ String c t)) = endswith_sep (String c t)).
  rewrite <- IH.
  destruct s; reflexivity.
Qed.

(** ** The output path *)

(** X2: where the relative path does not start with the separator, the base
    path is not empty and neither it nor the example name ends with the
    separator, the three parts are joined with separators, as the docstring
    of [_build_absolute_path] says. *)
Lemma build_absolute_path_relative (cfg : Config) (relative_path : string) :
  startswith relative_path "/" = false ->
  get_s3_output_base_path cfg <> "" ->
  endswith_sep (get_s3_output_base_path cfg) = false ->
  endswith_sep (EXAMPLE_NAME cfg) = false ->
  _build_absolute_path cfg relative_path =
    (get_s3_output_base_path cfg ++ "/" ++ EXAMPLE_NAME cfg ++ "/" ++ relative_path)%string.
Proof.
  intros Hrel Hne Hend Hname.
  unfold _build_absolute_path, path_join. cbn [fold_left].
  assert (H1 : join_step (get_s3_output_base_path cfg) (EXAMPLE_NAME cfg)
               = (get_s3_output_base_path cfg ++ "/" ++ EXAMPLE_NAME cfg)%string).
  { unfold join_step. unfold EXAMPLE_NAME at 1. cbn [startswith String.prefix append].
    rewrite Hend. destruct (String.eqb_spec (get_s3_output_base_path cfg) ""); [contradiction|].
    reflexivity. }
  rewrite H1. unfold join_step. rewrite Hrel.
  assert (H2 : endswith_sep (get_s3_output_base_path cfg ++ "/" ++ EXAMPLE_NAME cfg) = false).
  { change ("/" ++ EXAMPLE_NAME cfg)%string with (String "/" (EXAMPLE_NAME cfg)).
    rewrite endswith_sep_app.
    change (String "/" (EXAMPLE_NAME cfg))
      with ("/" ++ String "S" ("treamMappingMonoInputTracks-" ++ now_isoformat cfg))%string.
    rewrite endswith_sep_app. exact Hname. }
  rewrite H2.
  destruct (String.eqb_spec (get_s3_output_base_path cfg ++ "/" ++ EXAMPLE_NAME cfg)%string "") as [E|_].
  - destruct (get_s3_output_base_path cfg); [contradiction|discriminate].
  - cbn [orb]. rewrite string_app_assoc. reflexivity.
Qed.

Lemma for_streams_run (streams : list string) (muxing : Mp4Muxing) :
  for_streams streams muxing =
    mkMp4Muxing (mux_outputs muxing) (mux_filename muxing)
                (mux_streams muxing ++ map mkMuxingStream streams).
Proof.
  revert muxing. induction streams as [|stream rest IH]; intros muxing.
  - cbn. rewrite app_nil_r. now destruct muxing.
  - cbn [for_streams map]. rewrite IH. cbn. now rewrite <- app_assoc.
Qed.

(** The whole of [main] before the encoding is started: twenty-one creation
    requests, each answered with the next resource of the service. *)
Lemma main_setup_run (cfg : Config) (svc : Service) :
  let id := resource_id svc in
  let input_file_path := get_http_input_file_path_with_multiple_mono_audio_tracks cfg in
  let ingest := fun m => Call (InputStreamsIngestCreate (id 0) (ingest_request_for (id 1) input_file_path m)) in
  main_setup cfg svc initial_world =
    (Ok (id 0),
     mkWorld 21 0
       ([ Call (EncodingsCreate
                  (mkEncoding "Audio Mapping - Stream Mapping - Multiple Mono Tracks"
                     "Input with multiple mono tracks -> Output with stereo and surround tracks"));
          Call (InputsHttpCreate (mkHttpInput (get_http_input_host cfg)));
          Call (OutputsS3Create
                  (mkS3Output (get_s3_output_bucket_name cfg)
                     (get_s3_output_access_key cfg) (get_s3_output_secret_key cfg)));
          Call (ConfigurationsH264Create
                  (mkH264 "H.264 1080p @ 1.5 Mbit/S" 1080 1500000 VOD_STANDARD));
          Call (ConfigurationsAacCreate (mkAac "AAC Audio @ 128 kbit/s" 128000));
          Call (ConfigurationsDolbyDigitalCreate
                  (mkDolbyDigital "Dolby Digital Channel Layout 5.1" 256000 CL_5_1));
          Call (InputStreamsIngestCreate (id 0)
                  (mkIngestInputStream (id 1) input_file_path AUTO None)) ]
        ++ map ingest stereo_map
        ++ [ Call (InputStreamsAudioMixCreate (id 0)
                     (mkAudioMix CL_STEREO (assignments svc 7 stereo_map))) ]
        ++ map ingest surround_map
        ++ [ Call (InputStreamsAudioMixCreate (id 0)
                     (mkAudioMix CL_5_1_BACK (assignments svc 10 surround_map)));
             Call (StreamsCreate (id 0) (mkStream [mkStreamInput (id 6)] (id 3) STANDARD));
             Call (StreamsCreate (id 0) (mkStream [mkStreamInput (id 9)] (id 4) STANDARD));
             Call (StreamsCreate (id 0) (mkStream [mkStreamInput (id 16)] (id 5) STANDARD));
             Call (MuxingsMp4Create (id 0)
                     (mkMp4Muxing [mkEncodingOutput "/" (id 2) [mkAclEntry PUBLIC_READ]]
                        "stereo-and-surround-tracks-mapped.mp4"
                        [mkMuxingStream (id 17); mkMuxingStream (id 18);
                         mkMuxingStream (id 19)])) ])).
Proof. reflexivity. Qed.

(** C1, on the code: [main] passes the relative path ["/"], which starts with
    the separator, so [path.join] drops the base path and the example name:
    for every configuration the output path of the muxing is ["/"]. *)
Theorem main_output_path_drops_base (cfg : Config) (svc : Service) :
  _build_absolute_path cfg "/" = "/" /\
  map (fun m => (map eo_output_path (mux_outputs m), mux_filename m))
      (mp4_requests (trace (snd (main_setup cfg svc initial_world))))
    = [(["/"], "stereo-and-surround-tracks-mapped.mp4")].
Proof. split; reflexivity. Qed.

(** The same at the base path [/outputs]: the path is not the one the
    docstring of [_build_absolute_path] describes. *)
Example build_absolute_path_outputs (host file bucket ak sk now : string) :
  let cfg := mkConfig host file bucket ak sk "/outputs" now in
  _build_absolute_path cfg "/" = "/" /\
  _build_absolute_path cfg "/"
    <> ("/outputs/" ++ EXAMPLE_NAME cfg ++ "/")%string.
Proof. split; [reflexivity|discriminate]. Qed.

(** ** The mapping tables *)

(** C2: the two tables are constants: the stereo table has 2 entries, track 0
    to front-left and track 1 to front-right; the surround table has 6
    entries, tracks 2 to 7 to front-left, front-right, back-left, back-right,
    center and low-frequency, in that order.  Whatever the configuration and
    the service, [main] requests the ingests of the stereo table, then those
    of the surround table. *)
Theorem mapping_tables_constant :
  map (fun m => (source_channel_number m, output_channel_type m)) stereo_map
    = [(0%Z, FRONT_LEFT); (1%Z, FRONT_RIGHT)] /\
  length stereo_map = 2 /\
  map (fun m => (source_channel_number m, output_channel_type m)) surround_map
    = [(2%Z, FRONT_LEFT); (3%Z, FRONT_RIGHT); (4%Z, BACK_LEFT);
       (5%Z, BACK_RIGHT); (6%Z, CENTER); (7%Z, LOW_FREQUENCY)] /\
  length surround_map = 6 /\
  forall (cfg : Config) (svc : Service),
    map iis_position (ingest_requests (trace (snd (main_setup cfg svc initial_world))))
      = None :: map (fun m => Some (source_channel_number m)) (stereo_map ++ surround_map).
Proof. repeat split. Qed.

(** ** Logging the errors of a task *)

Lemma print_messages_run (filtered : list Message) (w : World) :
  print_messages filtered w =
    (Ok tt, mkWorld (created w) (polled w)
              (trace w ++ map (fun m => Print (Line (msg_text m))) filtered)).
Proof.
  revert w. induction filtered as [|message rest IH]; intros w.
  - cbn. rewrite app_nil_r. now destruct w.
  - cbn [print_messages]. unfold bind, print, emit. rewrite IH. cbn.
    now rewrite <- app_assoc.
Qed.

Lemma is_error_message_iff (x : Message) :
  is_error_message x = true <-> msg_type x = MT_ERROR.
Proof. unfold is_error_message. destruct (msg_type x); split; congruence. Qed.

(** C9: given no task, [_log_task_errors] returns without printing and
    without raising; given a task, it prints the texts of the messages whose
    type is [ERROR], in the order of the task's message list, and nothing
    else. *)
Theorem log_task_errors_spec :
  (forall w, _log_task_errors None w = (Ok tt, w)) /\
  (forall task w,
     _log_task_errors (Some task) w =
       (Ok tt, mkWorld (created w) (polled w)
                 (trace w ++ map (fun m => Print (Line (msg_text m)))
                                 (filter is_error_message (messages task))))) /\
  (forall x, is_error_message x = true <-> msg_type x = MT_ERROR).
Proof.
  split; [reflexivity|]. split.
  - intros task w. unfold _log_task_errors. apply print_messages_run.
  - apply is_error_message_iff.
Qed.

(** ** Stream assembly *)

Lemma assignments_cons (svc : Service) (k : nat) (m : ChannelMappingConfig)
    (rest : list ChannelMappingConfig) :
  assignments svc k (m :: rest) =
    assignment_for (resource_id svc k) m :: assignments svc (S k) rest.
Proof. reflexivity. Qed.

(** The loop sends one ingest request per entry and appends one assignment
    per entry; it leaves the layout alone. *)
Lemma for_mapping_configs_run (svc : Service) (encoding input input_file_path : string)
    (mapping_configs : list ChannelMappingConfig) :
  valid_table mapping_configs ->
  forall (mix : AudioMixInputStream) (w : World),
    for_mapping_configs svc encoding input input_file_path mapping_configs mix w =
      (Ok (mkAudioMix (am_channel_layout mix)
             (am_audio_mix_channels mix ++ assignments svc (created w) mapping_configs)),
       mkWorld (created w + length mapping_configs) (polled w)
         (trace w ++
          map (fun m => Call (InputStreamsIngestCreate encoding
                                (ingest_request_for input input_file_path m)))
              mapping_configs)).
Proof.
  induction mapping_configs as [|m rest IH]; intros Hvalid mix w.
  - cbn. rewrite !app_nil_r, Nat.add_0_r. now destruct mix, w.
  - inversion Hvalid as [|? ? Hm Hrest]; subst.
    cbn [for_mapping_configs]. unfold bind at 1.
    unfold _create_ingest_input_stream_for_audio_track, create.
    rewrite (proj2 (Z.ltb_ge _ _) Hm).
    rewrite (IH Hrest). cbn [created polled trace am_channel_layout am_audio_mix_channels
                     append_audio_mix_channel append_source_channel
                     mc_input_stream_id mc_output_channel_type mc_source_channels
                     length map app].
    rewrite assignments_cons, Nat.add_succ_r. repeat rewrite <- app_assoc. reflexivity.
Qed.

Lemma create_audio_mix_input_stream_run (svc : Service)
    (encoding input input_file_path : string)
    (channel_layout : AudioMixInputChannelLayout)
    (mapping_configs : list ChannelMappingConfig) (w : World) :
  valid_table mapping_configs ->
  _create_audio_mix_input_stream svc encoding input input_file_path
      channel_layout mapping_configs w =
    (Ok (resource_id svc (created w + length mapping_configs)),
     mkWorld (S (created w + length mapping_configs)) (polled w)
       (trace w ++
        (map (fun m => Call (InputStreamsIngestCreate encoding
                               (ingest_request_for input input_file_path m)))
             mapping_configs
         ++ [Call (InputStreamsAudioMixCreate encoding
                     (mkAudioMix channel_layout
                        (assignments svc (created w) mapping_configs)))]))).
Proof.
  intros Hvalid.
  unfold _create_audio_mix_input_stream, build_audio_mix_input_stream, bind.
  rewrite (for_mapping_configs_run _ _ _ _ _ Hvalid). unfold create.
  cbn [created polled trace app]. now rewrite <- app_assoc.
Qed.

Lemma ingest_requests_ingest_calls (encoding input input_file_path : string)
    (table : list ChannelMappingConfig) :
  ingest_requests
    (map (fun m => Call (InputStreamsIngestCreate encoding
                           (ingest_request_for input input_file_path m))) table)
  = map (ingest_request_for input input_file_path) table.
Proof. induction table as [|m rest IH]; [reflexivity|]. cbn. now rewrite <- IH. Qed.

Lemma audio_mix_requests_ingest_calls (encoding input input_file_path : string)
    (table : list ChannelMappingConfig) :
  audio_mix_requests
    (map (fun m => Call (InputStreamsIngestCreate encoding
                           (ingest_request_for input input_file_path m))) table)
  = [].
Proof. induction table as [|m rest IH]; [reflexivity|]. cbn. exact IH. Qed.

Lemma assignments_length (svc : Service) (k : nat) (table : list ChannelMappingConfig) :
  length (assignments svc k table) = length table.
Proof.
  unfold assignments, ids_from.
  rewrite length_map, length_combine, length_map, length_seq. apply Nat.min_id.
Qed.

Lemma assignments_roles (svc : Service) (k : nat) (table : list ChannelMappingConfig) :
  map mc_output_channel_type (assignments svc k table) = map output_channel_type table.
Proof.
  revert k. induction table as [|m rest IH]; intros k; [reflexivity|].
  rewrite assignments_cons. cbn. now rewrite IH.
Qed.

Lemma assignments_refs (svc : Service) (k : nat) (table : list ChannelMappingConfig) :
  map mc_input_stream_id (assignments svc k table) = ids_from svc k (length table).
Proof.
  revert k. induction table as [|m rest IH]; intros k; [reflexivity|].
  rewrite assignments_cons. cbn. rewrite IH. reflexivity.
Qed.

Lemma assignments_sources (svc : Service) (k : nat) (table : list ChannelMappingConfig) :
  Forall (fun ch => mc_source_channels ch = [mkSourceChannel CHANNEL_NUMBER 0])
         (assignments svc k table).
Proof.
  revert k. induction table as [|m rest IH]; intros k; [constructor|].
  rewrite assignments_cons. constructor; [reflexivity|apply IH].
Qed.

Lemma assignments_nth (svc : Service) (k : nat) (table : list ChannelMappingConfig) :
  forall i m, nth_error table i = Some m ->
    nth_error (assignments svc k table) i
      = Some (assignment_for (resource_id svc (k + i)) m).
Proof.
  revert k. induction table as [|m0 rest IH]; intros k i m H.
  - destruct i; discriminate.
  - rewrite assignments_cons. destruct i as [|i]; cbn in *.
    + injection H as ->. now rewrite Nat.add_0_r.
    + rewrite (IH (S k) i m H). now rewrite Nat.add_succ_r.
Qed.

(** C3: for a mapping table of length N (its source track indices are not
    negative, as the data model has it), starting from any world, stream
    assembly sends exactly N ingest creation requests, one per entry and in
    table order, each selecting the audio track at the relative position
    given by the entry's source channel number, and exactly one mixed-stream
    creation request.  The assignments of that request keep the order of the
    table; the i-th of them holds the reference the service returned for the
    i-th ingest request, so no two of them share an ingest, and their
    references are pairwise distinct whenever the ids the service gave to
    these N ingests are. *)
Theorem stream_assembly_requests (svc : Service)
    (encoding input input_file_path : string)
    (channel_layout : AudioMixInputChannelLayout)
    (table : list ChannelMappingConfig) (w : World) :
  valid_table table ->
  let run := _create_audio_mix_input_stream svc encoding input input_file_path
               channel_layout table w in
  let new := events_since w (snd run) in
  exists mix,
    fst run = Ok (resource_id svc (created w + length table)) /\
    ingest_requests new =
      map (fun m => mkIngestInputStream input input_file_path AUDIO_RELATIVE
                      (Some (source_channel_number m))) table /\
    length (ingest_requests new) = length table /\
    audio_mix_requests new = [mix] /\
    length new = length table + 1 /\
    am_channel_layout mix = channel_layout /\
    length (am_audio_mix_channels mix) = length table /\
    map mc_output_channel_type (am_audio_mix_channels mix)
      = map output_channel_type table /\
    map mc_input_stream_id (am_audio_mix_channels mix)
      = ids_from svc (created w) (length table) /\
    (NoDup (ids_from svc (created w) (length table)) ->
     NoDup (map mc_input_stream_id (am_audio_mix_channels mix))).
Proof.
  intros Hvalid run new.
  exists (mkAudioMix channel_layout (assignments svc (created w) table)).
  subst new run. rewrite (create_audio_mix_input_stream_run _ _ _ _ _ _ _ Hvalid).
  cbn [fst snd].
  rewrite (events_since_app _ _ (trace w) _ w eq_refl).
  unfold ingest_requests, audio_mix_requests. rewrite !flat_map_app.
  fold (ingest_requests (map (fun m => Call (InputStreamsIngestCreate encoding
          (ingest_request_for input input_file_path m))) table)).
  fold (audio_mix_requests (map (fun m => Call (InputStreamsIngestCreate encoding
          (ingest_request_for input input_file_path m))) table)).
  rewrite ingest_requests_ingest_calls, audio_mix_requests_ingest_calls.
  cbn [flat_map app am_channel_layout am_audio_mix_channels].
  rewrite app_nil_r, !length_map, length_app, length_map.
  rewrite assignments_length, assignments_roles, assignments_refs.
  repeat split; auto.
Qed.

(** C4: for a mapping table whose source track indices are not negative,
    the i-th assignment of the mixed stream is built from the i-th table
    entry: it pairs the reference returned for that entry's ingest
    request with the entry's output channel type, and its source channels
    are exactly one, channel number 0. *)
Theorem stream_assembly_assignments (svc : Service)
    (encoding input input_file_path : string)
    (channel_layout : AudioMixInputChannelLayout)
    (table : list ChannelMappingConfig) (w : World) :
  valid_table table ->
  let run := _create_audio_mix_input_stream svc encoding input input_file_path
               channel_layout table w in
  exists mix,
    audio_mix_requests (events_since w (snd run)) = [mix] /\
    Forall2 (fun m ch =>
               mc_output_channel_type ch = output_channel_type m /\
               mc_source_channels ch = [mkSourceChannel CHANNEL_NUMBER 0])
            table (am_audio_mix_channels mix) /\
    am_audio_mix_channels mix =
      map (fun p => mkMixChannel (fst p) (output_channel_type (snd p))
                      [mkSourceChannel CHANNEL_NUMBER 0])
          (combine (ids_from svc (created w) (length table)) table) /\
    Forall (fun ch => length (mc_source_channels ch) = 1)
           (am_audio_mix_channels mix) /\
    (forall i m, nth_error table i = Some m ->
       nth_error (am_audio_mix_channels mix) i =
         Some (mkMixChannel (resource_id svc (created w + i))
                 (output_channel_type m) [mkSourceChannel CHANNEL_NUMBER 0])).
Proof.
  intros Hvalid run.
  exists (mkAudioMix channel_layout (assignments svc (created w) table)).
  subst run. rewrite (create_audio_mix_input_stream_run _ _ _ _ _ _ _ Hvalid).
  cbn [fst snd].
  rewrite (events_since_app _ _ (trace w) _ w eq_refl).
  unfold audio_mix_requests. rewrite flat_map_app.
  fold (audio_mix_requests (map (fun m => Call (InputStreamsIngestCreate encoding
          (ingest_request_for input input_file_path m))) table)).
  rewrite audio_mix_requests_ingest_calls.
  cbn [flat_map app am_audio_mix_channels].
  split; [reflexivity|]. split; [|split; [reflexivity|split]].
  - clear Hvalid. generalize (created w). induction table as [|m rest IH]; intros k.
    + constructor.
    + rewrite assignments_cons. constructor; [split; reflexivity|apply IH].
  - eapply Forall_impl; [|apply assignments_sources].
    intros ch H. now rewrite H.
  - intros i m H. apply (assignments_nth svc (created w) table i m H).
Qed.

(** ** The job lifecycle *)

Lemma loop_condition (task : Task) :
  (negb (status_is task FINISHED) && negb (status_is task ERROR))%bool
  = negb (is_final task).
Proof. unfold is_final. now rewrite negb_orb. Qed.

Lemma wait_for_enoding_to_finish_run (svc : Service) (encoding : string) (w : World) :
  _wait_for_enoding_to_finish svc encoding w =
    (Ok (status_response svc (polled w)),
     mkWorld (created w) (S (polled w))
       (trace w ++ poll_events encoding (status_response svc (polled w)))).
Proof.
  unfold _wait_for_enoding_to_finish, bind, sleep, print, emit, encodings_status, ret.
  cbn [created polled trace]. unfold poll_events.
  repeat rewrite <- app_assoc. reflexivity.
Qed.

Lemma polls_events_S (svc : Service) (encoding : string) (k n : nat) :
  polls_events svc encoding k (S n) =
    poll_events encoding (status_response svc k) ++ polls_events svc encoding (S k) n.
Proof. reflexivity. Qed.

Lemma find_final_Some (svc : Service) (fuel : nat) :
  forall k i, find_final svc k fuel = Some i <->
    i < fuel /\
    is_final (status_response svc (k + i)) = true /\
    (forall j, j < i -> is_final (status_response svc (k + j)) = false).
Proof.
  induction fuel as [|fuel IH]; intros k i; cbn [find_final].
  - split; [discriminate|]. intros [H _]. lia.
  - destruct (is_final (status_response svc k)) eqn:E.
    + split.
      * intros [= <-]. rewrite Nat.add_0_r. repeat split; [lia|exact E|]. intros j Hj; lia.
      * intros (_ & _ & Hmin). destruct i as [|i]; [reflexivity|].
        specialize (Hmin 0 ltac:(lia)). rewrite Nat.add_0_r in Hmin. congruence.
    + destruct (find_final svc (S k) fuel) as [i'|] eqn:F; cbn [option_map].
      * apply IH in F. destruct F as (Hlt & Hfin & Hmin). split.
        -- intros [= <-]. rewrite Nat.add_succ_r. repeat split; [lia|exact Hfin|].
           intros [|j] Hj; [now rewrite Nat.add_0_r|].
           rewrite Nat.add_succ_r. apply (Hmin j). lia.
        -- intros (Hi & Hfi & Hmi). destruct i as [|i].
           ++ rewrite Nat.add_0_r in Hfi. congruence.
           ++ f_equal. f_equal.
              destruct (Nat.lt_trichotomy i i') as [L|[L|L]]; [|exact (eq_sym L)|].
              ** specialize (Hmin i L). rewrite Nat.add_succ_r in Hfi.
                 cbn in Hmin. congruence.
              ** specialize (Hmi (S i') ltac:(lia)). rewrite Nat.add_succ_r in Hmi.
                 cbn in Hfin. congruence.
      * split; [discriminate|]. intros (Hi & Hfi & Hmi). destruct i as [|i].
        -- rewrite Nat.add_0_r in Hfi. congruence.
        -- assert (F' : find_final svc (S k) fuel = Some i).
           { apply IH. repeat split; [lia| |].
             - cbn. now rewrite <- Nat.add_succ_r.
             - intros j Hj. specialize (Hmi (S j) ltac:(lia)).
               cbn. now rewrite <- Nat.add_succ_r. }
           congruence.
Qed.

Lemma find_final_None (svc : Service) (fuel : nat) :
  forall k, find_final svc k fuel = None <->
    (forall j, j < fuel -> is_final (status_response svc (k + j)) = false).
Proof.
  induction fuel as [|fuel IH]; intros k; cbn [find_final].
  - split; [intros _ j Hj; lia|reflexivity].
  - destruct (is_final (status_response svc k)) eqn:E.
    + split; [discriminate|]. intros H. specialize (H 0 ltac:(lia)).
      rewrite Nat.add_0_r in H. congruence.
    + destruct (find_final svc (S k) fuel) as [i'|] eqn:F; cbn [option_map].
      * split; [discriminate|]. intros H.
        assert (F' : find_final svc (S k) fuel = None).
        { apply IH. intros j Hj. specialize (H (S j) ltac:(lia)).
          cbn. now rewrite <- Nat.add_succ_r. }
        congruence.
      * split; [|reflexivity]. intros _ [|j] Hj; [now rewrite Nat.add_0_r|].
        rewrite Nat.add_succ_r. apply (proj1 (IH (S k)) F j). lia.
Qed.

(** The loop either stops on the first final task it fetches, or uses up its
    fuel on tasks that are not final. *)
Lemma while_not_final_run (svc : Service) (encoding : string) (fuel : nat) :
  forall (task : Task) (w : World),
    while_not_final svc fuel encoding task w =
      if is_final task then (Ok task, w)
      else match find_final svc (polled w) fuel with
           | Some i =>
               (Ok (status_response svc (polled w + i)),
                mkWorld (created w) (polled w + S i)
                  (trace w ++ polls_events svc encoding (polled w) (S i)))
           | None =>
               (OutOfFuel,
                mkWorld (created w) (polled w + fuel)
                  (trace w ++ polls_events svc encoding (polled w) fuel))
           end.
Proof.
  induction fuel as [|fuel IH]; intros task w.
  - cbn [while_not_final find_final]. rewrite loop_condition.
    destruct (is_final task); [reflexivity|]. cbn [negb]. unfold out_of_fuel.
    cbn. rewrite app_nil_r, Nat.add_0_r. now destruct w.
  - cbn [while_not_final find_final]. rewrite loop_condition.
    destruct (is_final task); [reflexivity|]. cbn [negb]. unfold bind.
    rewrite wait_for_enoding_to_finish_run, IH. cbn [created polled trace].
    destruct (is_final (status_response svc (polled w))) eqn:E.
    + unfold polls_events, poll_events. cbn.
      rewrite Nat.add_0_r, Nat.add_1_r. reflexivity.
    + destruct (find_final svc (S (polled w)) fuel) as [i|]; cbn [option_map];
        rewrite polls_events_S, <- app_assoc, !Nat.add_succ_r; reflexivity.
Qed.

Lemma report_run (svc : Service) (task : Task) (w : World) :
  (if status_is task ERROR
   then _log_task_errors (Some task) ;;; raise "Encoding failed"
   else print (Line "Encoding finished successfully")) w =
    (report_result task,
     mkWorld (created w) (polled w) (trace w ++ report_events task)).
Proof.
  unfold report_result, report_events. destruct (status_is task ERROR).
  - unfold bind, _log_task_errors. rewrite print_messages_run. reflexivity.
  - reflexivity.
Qed.

(** What a run of [_execute_encoding] with the given fuel does, in full. *)
Lemma execute_encoding_run (svc : Service) (fuel : nat) (encoding : string) (w : World) :
  _execute_encoding svc fuel encoding w =
    match find_final svc (polled w) (S fuel) with
    | Some i =>
        let task := status_response svc (polled w + i) in
        (report_result task,
         mkWorld (created w) (polled w + S i)
           (trace w ++ Call (EncodingsStart encoding)
                       :: polls_events svc encoding (polled w) (S i)
                       ++ report_events task))
    | None =>
        (OutOfFuel,
         mkWorld (created w) (polled w + S fuel)
           (trace w ++ Call (EncodingsStart encoding)
                       :: polls_events svc encoding (polled w) (S fuel)))
    end.
Proof.
  unfold _execute_encoding. unfold bind at 1. unfold encodings_start, emit.
  unfold bind at 1. rewrite wait_for_enoding_to_finish_run.
  cbn [created polled trace]. unfold bind at 1. rewrite while_not_final_run.
  cbn [created polled trace find_final].
  destruct (is_final (status_response svc (polled w))) eqn:E.
  - rewrite (report_run svc). cbn [created polled trace].
    rewrite Nat.add_0_r, Nat.add_1_r. cbv zeta.
    rewrite polls_events_S. cbn [polls_events seq flat_map].
    repeat rewrite <- app_assoc. reflexivity.
  - destruct (find_final svc (S (polled w)) fuel) as [i|]; cbn [option_map].
    + rewrite (report_run svc). cbn [created polled trace]. cbv zeta.
      rewrite (polls_events_S svc encoding (polled w) (S i)), !Nat.add_succ_r.
      repeat rewrite <- app_assoc. reflexivity.
    + rewrite (polls_events_S svc encoding (polled w) fuel), !Nat.add_succ_r.
      repeat rewrite <- app_assoc. reflexivity.
Qed.

Lemma polls_app (l1 l2 : list Event) : polls (l1 ++ l2) = polls l1 + polls l2.
Proof. unfold polls. now rewrite filter_app, length_app. Qed.

Lemma polls_polls_events (svc : Service) (encoding : string) (n : nat) :
  forall k, polls (polls_events svc encoding k n) = n.
Proof.
  induction n as [|n IH]; intros k; [reflexivity|].
  rewrite polls_events_S, polls_app, IH. reflexivity.
Qed.

Lemma polls_report_events (task : Task) : polls (report_events task) = 0.
Proof.
  unfold report_events. destruct (status_is task ERROR); [|reflexivity].
  induction (filter is_error_message (messages task)) as [|m l IH]; [reflexivity|exact IH].
Qed.

(** C5: with the statuses RUNNING, RUNNING, FINISHED (whatever the service
    would answer afterwards), and fuel for the two rounds of the loop or
    more, the runner sends the start request, polls exactly three times,
    prints the success message and returns without raising. *)
Theorem runner_running_running_finished
    (ids : nat -> string) (rest : nat -> Task)
    (p1 p2 p3 : option Z) (m1 m2 m3 : list Message)
    (encoding : string) (c : nat) (tr : list Event) (extra : nat) :
  let svc := mkService ids
               (prepend [mkTask (Some RUNNING) p1 m1;
                         mkTask (Some RUNNING) p2 m2;
                         mkTask (Some FINISHED) p3 m3] rest) in
  let w := mkWorld c 0 tr in
  let run := _execute_encoding svc (2 + extra) encoding w in
  run = (Ok tt,
         mkWorld c 3
           (tr ++ [Call (EncodingsStart encoding);
                   Sleep 5; Call (EncodingsStatus encoding);
                   Print (StatusLine (Some RUNNING) p1);
                   Sleep 5; Call (EncodingsStatus encoding);
                   Print (StatusLine (Some RUNNING) p2);
                   Sleep 5; Call (EncodingsStatus encoding);
                   Print (StatusLine (Some FINISHED) p3);
                   Print (Line "Encoding finished successfully")])) /\
  polls (events_since w (snd run)) = 3 /\
  printed_lines (events_since w (snd run)) = ["Encoding finished successfully"].
Proof.
  intros svc w run.
  assert (H : run = (Ok tt,
         mkWorld c 3
           (tr ++ [Call (EncodingsStart encoding);
                   Sleep 5; Call (EncodingsStatus encoding);
                   Print (StatusLine (Some RUNNING) p1);
                   Sleep 5; Call (EncodingsStatus encoding);
                   Print (StatusLine (Some RUNNING) p2);
                   Sleep 5; Call (EncodingsStatus encoding);
                   Print (StatusLine (Some FINISHED) p3);
                   Print (Line "Encoding finished successfully")]))).
  { subst run w svc. rewrite execute_encoding_run. reflexivity. }
  rewrite H. split; [reflexivity|]. cbn [snd].
  rewrite (events_since_app _ _ tr _ w eq_refl). split; reflexivity.
Qed.

(** C6: with the statuses RUNNING, ERROR, the task in error carrying an
    ERROR message "bad input" and an INFO message "ignored", the runner polls
    exactly twice, prints of the messages only "bad input", and raises. *)
Theorem runner_running_error
    (ids : nat -> string) (rest : nat -> Task)
    (p1 p2 : option Z) (m1 : list Message)
    (encoding : string) (c : nat) (tr : list Event) (extra : nat) :
  let svc := mkService ids
               (prepend [mkTask (Some RUNNING) p1 m1;
                         mkTask (Some ERROR) p2
                           [mkMessage MT_ERROR "bad input";
                            mkMessage MT_INFO "ignored"]] rest) in
  let w := mkWorld c 0 tr in
  let run := _execute_encoding svc (1 + extra) encoding w in
  run = (Raised "Encoding failed",
         mkWorld c 2
           (tr ++ [Call (EncodingsStart encoding);
                   Sleep 5; Call (EncodingsStatus encoding);
                   Print (StatusLine (Some RUNNING) p1);
                   Sleep 5; Call (EncodingsStatus encoding);
                   Print (StatusLine (Some ERROR) p2);
                   Print (Line "bad input")])) /\
  polls (events_since w (snd run)) = 2 /\
  printed_lines (events_since w (snd run)) = ["bad input"].
Proof.
  intros svc w run.
  assert (H : run = (Raised "Encoding failed",
         mkWorld c 2
           (tr ++ [Call (EncodingsStart encoding);
                   Sleep 5; Call (EncodingsStatus encoding);
                   Print (StatusLine (Some RUNNING) p1);
                   Sleep 5; Call (EncodingsStatus encoding);
                   Print (StatusLine (Some ERROR) p2);
                   Print (Line "bad input")]))).
  { subst run w svc. rewrite execute_encoding_run. reflexivity. }
  rewrite H. split; [reflexivity|]. cbn [snd].
  rewrite (events_since_app _ _ tr _ w eq_refl). split; reflexivity.
Qed.

Lemma is_final_iff (task : Task) :
  is_final task = true <-> status task = Some FINISHED \/ status task = Some ERROR.
Proof.
  unfold is_final, status_is. destruct (status task) as [[]|]; cbn; split;
    solve [auto | intros [H|H]; discriminate | discriminate].
Qed.

Lemma report_result_returns (task : Task) : report_result task <> OutOfFuel.
Proof. unfold report_result. destruct (status_is task ERROR); discriminate. Qed.

Lemma polls_execute_events (svc : Service) (encoding : string) (k n : nat)
    (tail : list Event) :
  polls tail = 0 ->
  polls (Call (EncodingsStart encoding) :: polls_events svc encoding k n ++ tail) = n.
Proof.
  intros H. change (polls (polls_events svc encoding k n ++ tail) = n).
  rewrite polls_app, polls_polls_events, H. apply Nat.add_0_r.
Qed.

(** When the first final task is the [n]-th fetched (from 0), every fuel
    from [n] on gives the same run: it returns or raises after [n + 1] polls. *)
Lemma execute_encoding_stops (svc : Service) (encoding : string) (w : World) (n fuel : nat) :
  is_final (status_response svc (polled w + n)) = true ->
  (forall j, j < n -> is_final (status_response svc (polled w + j)) = false) ->
  n <= fuel ->
  _execute_encoding svc fuel encoding w =
    (report_result (status_response svc (polled w + n)),
     mkWorld (created w) (polled w + S n)
       (trace w ++ Call (EncodingsStart encoding)
                   :: polls_events svc encoding (polled w) (S n)
                   ++ report_events (status_response svc (polled w + n)))).
Proof.
  intros Hfin Hmin Hle. rewrite execute_encoding_run.
  assert (F : find_final svc (polled w) (S fuel) = Some n).
  { apply find_final_Some. repeat split; [lia|exact Hfin|exact Hmin]. }
  rewrite F. reflexivity.
Qed.

(** When no task is final, the run uses up any fuel: it polls once more
    than the fuel and has not returned. *)
Lemma execute_encoding_never (svc : Service) (encoding : string) (w : World) (fuel : nat) :
  (forall n, is_final (status_response svc (polled w + n)) = false) ->
  _execute_encoding svc fuel encoding w =
    (OutOfFuel,
     mkWorld (created w) (polled w + S fuel)
       (trace w ++ Call (EncodingsStart encoding)
                   :: polls_events svc encoding (polled w) (S fuel))).
Proof.
  intros Hnever. rewrite execute_encoding_run.
  assert (F : find_final svc (polled w) (S fuel) = None).
  { apply find_final_None. intros j _. apply Hnever. }
  rewrite F. reflexivity.
Qed.

(** C7: the polling of [_execute_encoding] terminates (some fuel is enough
    for the run to return or raise) exactly when some fetched task is final,
    that is, has the status FINISHED or ERROR.  When the first final task is
    the n-th fetched, the run stops after n + 1 polls, for every fuel from n
    on.  When no task is ever final, no fuel is enough, and with fuel f the
    run has made f + 1 polls: the number of polls has no maximum; and for
    every bound there is a status sequence on which the run succeeds after
    more polls than the bound. *)
Theorem polling_terminates_iff_final (svc : Service) (encoding : string) (w : World) :
  let run := fun fuel => _execute_encoding svc fuel encoding w in
  let final := fun n => is_final (status_response svc (polled w + n)) = true in
  ((exists fuel, fst (run fuel) <> OutOfFuel) <-> (exists n, final n)) /\
  (forall n, final n <->
             status (status_response svc (polled w + n)) = Some FINISHED \/
             status (status_response svc (polled w + n)) = Some ERROR) /\
  (forall n, final n -> (forall j, j < n -> ~ final j) ->
     forall fuel, n <= fuel ->
       fst (run fuel) <> OutOfFuel /\
       polls (events_since w (snd (run fuel))) = S n /\
       run fuel = run n) /\
  ((forall n, ~ final n) ->
     forall fuel,
       fst (run fuel) = OutOfFuel /\
       polls (events_since w (snd (run fuel))) = S fuel) /\
  (forall bound,
     exists fuel,
       let w0 := mkWorld (created w) 0 (trace w) in
       let run' := _execute_encoding (mkService (resource_id svc) (finished_after bound))
                     fuel encoding w0 in
       fst run' = Ok tt /\ bound < polls (events_since w0 (snd run'))).
Proof.
  intros run final. subst run final. cbv beta.
  assert (Hnot : forall t, is_final t <> true -> is_final t = false).
  { intros t H. destruct (is_final t); congruence. }
  split; [|split; [|split; [|split]]].
  - split.
    + intros [fuel H]. rewrite execute_encoding_run in H.
      destruct (find_final svc (polled w) (S fuel)) as [i|] eqn:F.
      * exists i. now apply find_final_Some in F.
      * now contradiction H.
    + intros [n H]. exists n. rewrite execute_encoding_run.
      destruct (find_final svc (polled w) (S n)) as [i|] eqn:F.
      * apply report_result_returns.
      * exfalso. rewrite find_final_None in F. specialize (F n ltac:(lia)). congruence.
  - intros n. apply is_final_iff.
  - intros n Hfin Hmin fuel Hle.
    assert (Hmin' : forall j, j < n -> is_final (status_response svc (polled w + j)) = false).
    { intros j Hj. apply Hnot. now apply Hmin. }
    rewrite (execute_encoding_stops svc encoding w n fuel Hfin Hmin' Hle).
    rewrite (execute_encoding_stops svc encoding w n n Hfin Hmin' (le_n n)).
    cbn [fst snd]. split; [apply report_result_returns|]. split; [|reflexivity].
    rewrite (events_since_app _ _ (trace w) _ w eq_refl).
    apply polls_execute_events, polls_report_events.
  - intros Hnever fuel.
    rewrite (execute_encoding_never svc encoding w fuel (fun n => Hnot _ (Hnever n))).
    cbn [fst snd]. split; [reflexivity|].
    rewrite (events_since_app _ _ (trace w) _ w eq_refl).
    rewrite <- (app_nil_r (polls_events svc encoding (polled w) (S fuel))).
    now apply polls_execute_events.
  - intros bound. exists bound. cbv zeta.
    rewrite (execute_encoding_stops _ encoding (mkWorld (created w) 0 (trace w)) bound bound).
    + cbn [fst snd polled created trace status_response]. split.
      * cbn. unfold finished_after. now rewrite Nat.ltb_irrefl.
      * rewrite (events_since_app _ _ (trace w) _ (mkWorld (created w) 0 (trace w)) eq_refl).
        rewrite polls_execute_events; [lia|apply polls_report_events].
    + cbn. unfold finished_after. now rewrite Nat.ltb_irrefl.
    + intros j Hj. cbn. unfold finished_after.
      destruct (Nat.ltb_spec j bound); [reflexivity|lia].
    + apply le_n.
Qed.

Lemma sleeps_report_events (task : Task) :
  filter is_sleep (report_events task) = [].
Proof.
  unfold report_events. destruct (status_is task ERROR); [|reflexivity].
  induction (filter is_error_message (messages task)) as [|m l IH]; [reflexivity|exact IH].
Qed.

(** C10: whatever the service answers and whatever the fuel, the events of
    the runner start with the start request followed by one poll: one sleep
    of 5, then one status request (and the status line).  When the first
    fetched task is already final, that poll is the only one: the run has one
    sleep, one status request, then reports success or failure.  When it is
    not, a second poll follows wherever the loop may run. *)
Theorem first_poll_before_report (svc : Service) (fuel : nat) (encoding : string)
    (w : World) :
  let run := _execute_encoding svc fuel encoding w in
  let first := status_response svc (polled w) in
  let new := events_since w (snd run) in
  (exists rest,
     new = [Call (EncodingsStart encoding);
            Sleep 5; Call (EncodingsStatus encoding);
            Print (StatusLine (status first) (progress first))] ++ rest) /\
  1 <= polls new /\
  (if is_final first then
     run = (report_result first,
            mkWorld (created w) (S (polled w))
              (trace w ++ [Call (EncodingsStart encoding);
                           Sleep 5; Call (EncodingsStatus encoding);
                           Print (StatusLine (status first) (progress first))]
                       ++ report_events first)) /\
     fst run <> OutOfFuel /\
     polls new = 1 /\
     filter is_sleep new = [Sleep 5]
   else fuel = 0 \/ 2 <= polls new).
Proof.
  intros run first new. subst new run first.
  rewrite execute_encoding_run. cbn [find_final].
  destruct (is_final (status_response svc (polled w))) eqn:E.
  - cbv zeta. cbn [fst snd]. rewrite Nat.add_0_r, Nat.add_1_r.
    rewrite (events_since_app _ _ (trace w) _ w eq_refl).
    split; [eexists; reflexivity|]. split; [cbn; lia|].
    split; [reflexivity|]. split; [apply report_result_returns|]. split.
    + apply polls_execute_events, polls_report_events.
    + cbn. now rewrite sleeps_report_events.
  - destruct fuel as [|fuel].
    + cbn [find_final option_map snd].
      rewrite (events_since_app _ _ (trace w) _ w eq_refl).
      split; [eexists; reflexivity|]. split; [cbn; lia|]. now left.
    + destruct (find_final svc (S (polled w)) (S fuel)) as [i|]; cbn [option_map];
        cbv zeta; cbn [snd];
        rewrite (events_since_app _ _ (trace w) _ w eq_refl).
      * split; [eexists; reflexivity|].
        rewrite polls_execute_events by apply polls_report_events.
        split; [lia|right; lia].
      * rewrite <- (app_nil_r (polls_events svc encoding (polled w) (S (S fuel)))).
        split; [rewrite app_nil_r; eexists; reflexivity|].
        rewrite polls_execute_events by reflexivity.
        split; [lia|right; lia].
Qed.

(** ** The muxing *)

Lemma lifecycle_creates_nothing (tail : list Event) :
  Forall lifecycle_event tail ->
  creations tail = [] /\ mp4_requests tail = [] /\ stream_requests tail = [].
Proof.
  induction 1 as [|e tail He _ IH]; [repeat split|].
  destruct IH as (H1 & H2 & H3).
  destruct e as [[]| |]; cbn in He; try contradiction; cbn; auto.
Qed.

Lemma lifecycle_polls_events (svc : Service) (encoding : string) (n : nat) :
  forall k, Forall lifecycle_event (polls_events svc encoding k n).
Proof.
  induction n as [|n IH]; intros k; [constructor|].
  rewrite polls_events_S. apply Forall_app. split; [|apply IH].
  repeat constructor.
Qed.

Lemma lifecycle_report_events (task : Task) :
  Forall lifecycle_event (report_events task).
Proof.
  unfold report_events. destruct (status_is task ERROR).
  - apply Forall_map, Forall_forall. intros; exact I.
  - repeat constructor.
Qed.

Lemma execute_encoding_events (svc : Service) (fuel : nat) (encoding : string)
    (w : World) :
  exists tail,
    trace (snd (_execute_encoding svc fuel encoding w)) = trace w ++ tail /\
    Forall lifecycle_event tail.
Proof.
  rewrite execute_encoding_run.
  destruct (find_final svc (polled w) (S fuel)) as [i|]; cbv zeta; cbn [snd trace];
    eexists; (split; [reflexivity|]); constructor; try exact I.
  - apply Forall_app. split; [apply lifecycle_polls_events|apply lifecycle_report_events].
  - apply lifecycle_polls_events.
Qed.

Lemma main_run (cfg : Config) (svc : Service) (fuel : nat) :
  main cfg svc fuel initial_world =
    _execute_encoding svc fuel (resource_id svc 0)
      (snd (main_setup cfg svc initial_world)).
Proof. unfold main, bind. rewrite main_setup_run. reflexivity. Qed.

(** C8: [main] creates one MP4 muxing.  Its streams are three, in the order
    of the list passed in: the stream made from the video ingest with the
    H.264 configuration, the stream made from the stereo mix with the AAC
    configuration, and the stream made from the 5.1 mix with the Dolby
    Digital configuration. *)
Theorem mp4_muxing_streams (cfg : Config) (svc : Service) (fuel : nat) :
  let id := resource_id svc in
  let tr := trace (snd (main cfg svc fuel initial_world)) in
  let made := creations tr in
  (exists muxing,
     mp4_requests tr = [muxing] /\
     nth_error made 20 = Some (MuxingsMp4Create (id 0) muxing) /\
     mux_streams muxing =
       [mkMuxingStream (id 17); mkMuxingStream (id 18); mkMuxingStream (id 19)] /\
     length (mux_streams muxing) = 3) /\
  length made = 21 /\
  nth_error made 17 =
    Some (StreamsCreate (id 0) (mkStream [mkStreamInput (id 6)] (id 3) STANDARD)) /\
  nth_error made 18 =
    Some (StreamsCreate (id 0) (mkStream [mkStreamInput (id 9)] (id 4) STANDARD)) /\
  nth_error made 19 =
    Some (StreamsCreate (id 0) (mkStream [mkStreamInput (id 16)] (id 5) STANDARD)) /\
  nth_error made 3 =
    Some (ConfigurationsH264Create
            (mkH264 "H.264 1080p @ 1.5 Mbit/S" 1080 1500000 VOD_STANDARD)) /\
  nth_error made 4 =
    Some (ConfigurationsAacCreate (mkAac "AAC Audio @ 128 kbit/s" 128000)) /\
  nth_error made 5 =
    Some (ConfigurationsDolbyDigitalCreate
            (mkDolbyDigital "Dolby Digital Channel Layout 5.1" 256000 CL_5_1)) /\
  nth_error made 6 =
    Some (InputStreamsIngestCreate (id 0)
            (mkIngestInputStream (id 1)
               (get_http_input_file_path_with_multiple_mono_audio_tracks cfg) AUTO None)) /\
  nth_error made 9 =
    Some (InputStreamsAudioMixCreate (id 0)
            (mkAudioMix CL_STEREO (assignments svc 7 stereo_map))) /\
  nth_error made 16 =
    Some (InputStreamsAudioMixCreate (id 0)
            (mkAudioMix CL_5_1_BACK (assignments svc 10 surround_map))).
Proof.
  intros id tr made. subst made tr.
  rewrite main_run.
  destruct (execute_encoding_events svc fuel (resource_id svc 0)
              (snd (main_setup cfg svc initial_world))) as (tail & -> & Htail).
  destruct (lifecycle_creates_nothing tail Htail) as (H1 & H2 & _).
  assert (Hmade : creations (trace (snd (main_setup cfg svc initial_world)) ++ tail)
                  = creations (trace (snd (main_setup cfg svc initial_world)))).
  { generalize (trace (snd (main_setup cfg svc initial_world))). intros l.
    unfold creations at 1. rewrite flat_map_app. fold (creations tail) (creations l).
    now rewrite H1, app_nil_r. }
  assert (Hmp4 : mp4_requests (trace (snd (main_setup cfg svc initial_world)) ++ tail)
                 = mp4_requests (trace (snd (main_setup cfg svc initial_world)))).
  { generalize (trace (snd (main_setup cfg svc initial_world))). intros l.
    unfold mp4_requests at 1. rewrite flat_map_app.
    fold (mp4_requests tail) (mp4_requests l). now rewrite H2, app_nil_r. }
  rewrite Hmade, Hmp4. clear.
  rewrite main_setup_run. cbv zeta. cbn [snd trace].
  split; [eexists; split; [vm_compute; reflexivity|]; repeat split|].
  repeat (split; [vm_compute; reflexivity|]). vm_compute; reflexivity.
Qed.

(** ** Concrete runs *)

(** Stream assembly of the stereo table against [lettered_service]: the two
    assignments hold the two distinct ingests ["A"] and ["B"]. *)
Lemma stream_assembly_requests_witness :
  exists mix,
    audio_mix_requests
      (events_since initial_world
         (snd (_create_audio_mix_input_stream lettered_service
                 "enc" "in" "tracks.mov" CL_STEREO stereo_map initial_world))) = [mix] /\
    map mc_input_stream_id (am_audio_mix_channels mix) = ["A"; "B"] /\
    NoDup (map mc_input_stream_id (am_audio_mix_channels mix)).
Proof.
  assert (Hvalid : valid_table stereo_map).
  { repeat constructor; discriminate. }
  pose proof (stream_assembly_requests lettered_service
                "enc" "in" "tracks.mov" CL_STEREO stereo_map initial_world Hvalid) as H.
  cbv zeta in H.
  destruct H as (mix & _ & _ & _ & Hmix & _ & _ & _ & _ & Hrefs & Hnodup).
  exists mix. split; [exact Hmix|]. split; [exact Hrefs|].
  apply Hnodup. vm_compute.
  constructor; [intros [H|[]]; discriminate H|].
  constructor; [intros []|constructor].
Defined.

(** Against [lettered_service] no task is final: with fuel 7 the runner has
    polled 8 times and has not returned. *)
Lemma polling_terminates_iff_final_witness :
  fst (_execute_encoding lettered_service 7 "enc" initial_world) = OutOfFuel /\
  polls (events_since initial_world
           (snd (_execute_encoding lettered_service 7 "enc" initial_world))) = 8.
Proof.
  pose proof (polling_terminates_iff_final lettered_service "enc" initial_world) as H.
  cbv zeta in H. destruct H as (_ & _ & _ & Hnever & _).
  apply (Hnever (fun n (E : is_final (status_response lettered_service
                                        (polled initial_world + n)) = true) =>
                   Bool.diff_false_true E) 7).
Defined.

(** ** More on the output path *)

(** X1: a relative path that starts with the separator comes back as it is:
    the base path and the example name are dropped. *)
Theorem build_absolute_path_absolute (cfg : Config) (relative_path : string) :
  startswith relative_path "/" = true ->
  _build_absolute_path cfg relative_path = relative_path.
Proof.
  intros H. unfold _build_absolute_path, path_join. cbn [fold_left].
  unfold join_step at 1. now rewrite H.
Qed.

Lemma build_absolute_path_absolute_witness :
  _build_absolute_path sample_config "/video/1080p" = "/video/1080p".
Proof. apply build_absolute_path_absolute. reflexivity. Defined.

(** A run of [build_absolute_path_relative] at the base path [/outputs]. *)
Lemma build_absolute_path_relative_witness :
  _build_absolute_path sample_config "video/1080p" =
    "/outputs/StreamMappingMonoInputTracks-2024-05-06T07:08:09/video/1080p".
Proof.
  apply (build_absolute_path_relative sample_config "video/1080p");
    [reflexivity|discriminate|reflexivity|reflexivity].
Defined.

Lemma string_app_empty (a b : string) : (a ++ b)%string = "" -> b = "".
Proof. destruct a; [trivial|discriminate]. Qed.

(** X3: with an empty base path, or one that already ends with the
    separator, no separator is put after it: the example name follows the
    base path directly (so an empty base path gives a path that does not
    start with the separator). *)
Theorem build_absolute_path_base_edge (cfg : Config) (relative_path : string) :
  startswith relative_path "/" = false ->
  endswith_sep (EXAMPLE_NAME cfg) = false ->
  get_s3_output_base_path cfg = "" \/ endswith_sep (get_s3_output_base_path cfg) = true ->
  _build_absolute_path cfg relative_path =
    (get_s3_output_base_path cfg ++ EXAMPLE_NAME cfg ++ "/" ++ relative_path)%string.
Proof.
  intros Hrel Hname Hbase.
  unfold _build_absolute_path, path_join. cbn [fold_left].
  assert (H1 : join_step (get_s3_output_base_path cfg) (EXAMPLE_NAME cfg)
               = (get_s3_output_base_path cfg ++ EXAMPLE_NAME cfg)%string).
  { unfold join_step. unfold EXAMPLE_NAME at 1. cbn [startswith String.prefix append].
    destruct Hbase as [-> | ->]; [reflexivity|]. now rewrite orb_true_r. }
  rewrite H1. unfold join_step. rewrite Hrel.
  assert (H2 : endswith_sep (get_s3_output_base_path cfg ++ EXAMPLE_NAME cfg) = false).
  { change (EXAMPLE_NAME cfg)
      with (String "S" ("treamMappingMonoInputTracks-" ++ now_isoformat cfg)) at 1.
    rewrite endswith_sep_app. exact Hname. }
  rewrite H2.
  destruct (String.eqb_spec (get_s3_output_base_path cfg ++ EXAMPLE_NAME cfg)%string "") as [E|_].
  - apply string_app_empty in E. discriminate E.
  - cbn [orb]. now rewrite string_app_assoc.
Qed.

Lemma build_absolute_path_base_edge_witness :
  _build_absolute_path
    (mkConfig "host" "file" "bucket" "access" "secret" "outputs/" "2024-05-06T07:08:09")
    "video" = "outputs/StreamMappingMonoInputTracks-2024-05-06T07:08:09/video" /\
  _build_absolute_path
    (mkConfig "host" "file" "bucket" "access" "secret" "" "2024-05-06T07:08:09")
    "video" = "StreamMappingMonoInputTracks-2024-05-06T07:08:09/video".
Proof.
  split.
  - apply (build_absolute_path_base_edge
             (mkConfig "host" "file" "bucket" "access" "secret" "outputs/"
                       "2024-05-06T07:08:09") "video");
      [reflexivity|reflexivity|right; reflexivity].
  - apply (build_absolute_path_base_edge
             (mkConfig "host" "file" "bucket" "access" "secret" ""
                       "2024-05-06T07:08:09") "video");
      [reflexivity|reflexivity|left; reflexivity].
Defined.

Lemma join_step_suffix (path b : string) :
  exists pre, join_step path b = (pre ++ b)%string.
Proof.
  unfold join_step. destruct (startswith b "/").
  - now exists "".
  - destruct (String.eqb path "" || endswith_sep path)%bool.
    + now exists path.
    + exists (path ++ "/")%string. now rewrite string_app_assoc.
Qed.

(** X4: whatever the configuration, the path built ends with the relative
    path given, unaltered. *)
Theorem build_absolute_path_suffix (cfg : Config) (relative_path : string) :
  exists pre, _build_absolute_path cfg relative_path = (pre ++ relative_path)%string.
Proof. unfold _build_absolute_path, path_join. cbn [fold_left]. apply join_step_suffix. Qed.

(** ** More on the muxing *)

(** X5: for any list of streams, [_create_mp4_muxing] sends one creation
    request and returns the id the service gives; the muxing sent has one
    muxing stream per stream given, in the order given, the file name given,
    and one output: the output given, at the path built from the output
    path, readable by everyone. *)
Theorem create_mp4_muxing_run (cfg : Config) (svc : Service)
    (encoding output output_path : string) (streams : list string)
    (file_name : string) (w : World) :
  _create_mp4_muxing cfg svc encoding output output_path streams file_name w =
    (Ok (resource_id svc (created w)),
     mkWorld (S (created w)) (polled w)
       (trace w ++
        [Call (MuxingsMp4Create encoding
                 (mkMp4Muxing
                    [mkEncodingOutput (_build_absolute_path cfg output_path) output
                       [mkAclEntry PUBLIC_READ]]
                    file_name
                    (map mkMuxingStream streams)))])).
Proof.
  unfold _create_mp4_muxing, build_mp4_muxing, create.
  rewrite for_streams_run. reflexivity.
Qed.

(** ** More on the job lifecycle *)

Lemma status_is_iff (task : Task) (s : Status) :
  status_is task s = true <-> status task = Some s.
Proof.
  unfold status_is. destruct (status task) as [s'|]; [|split; discriminate].
  destruct s', s; cbn; split; intros H; (reflexivity || discriminate H).
Qed.

Lemma printed_lines_polls_events (svc : Service) (encoding : string) (n : nat) :
  forall k, printed_lines (polls_events svc encoding k n) = [].
Proof. induction n as [|n IH]; intros k; [reflexivity|]. rewrite polls_events_S. apply IH. Qed.

Lemma printed_lines_messages (l : list Message) :
  printed_lines (map (fun m => Print (Line (msg_text m))) l) = map msg_text l.
Proof. induction l as [|m l IH]; [reflexivity|]. cbn. f_equal. exact IH. Qed.

Lemma printed_lines_execute_events (svc : Service) (encoding : string) (k n : nat)
    (tail : list Event) :
  printed_lines (Call (EncodingsStart encoding) :: polls_events svc encoding k n ++ tail)
  = printed_lines tail.
Proof.
  change (printed_lines (polls_events svc encoding k n ++ tail) = printed_lines tail).
  unfold printed_lines at 1. rewrite flat_map_app.
  fold (printed_lines (polls_events svc encoding k n)) (printed_lines tail).
  now rewrite printed_lines_polls_events.
Qed.

(** X6: how a run of [_execute_encoding] ends tells what was fetched last.
    If it returns, the last task fetched has the status FINISHED and the
    only line printed besides status lines is the success message.  If it
    raises, the exception is "Encoding failed", the last task fetched has the
    status ERROR, and the lines printed are the texts of that task's messages
    of type ERROR, in order (none from a task fetched before).  If the fuel
    runs out, every task fetched was not final and no line was printed. *)
Theorem execute_encoding_outcome (svc : Service) (fuel : nat) (encoding : string)
    (w : World) :
  let run := _execute_encoding svc fuel encoding w in
  let new := events_since w (snd run) in
  let fetched := fun n => status_response svc (polled w + n) in
  match fst run with
  | Ok _ =>
      exists n, polls new = S n /\
                status (fetched n) = Some FINISHED /\
                printed_lines new = ["Encoding finished successfully"]
  | Raised e =>
      e = "Encoding failed" /\
      exists n, polls new = S n /\
                status (fetched n) = Some ERROR /\
                printed_lines new =
                  map msg_text (filter is_error_message (messages (fetched n)))
  | OutOfFuel =>
      polls new = S fuel /\
      printed_lines new = [] /\
      forall j, j <= fuel -> is_final (fetched j) = false
  end.
Proof.
  intros run new fetched. subst new run fetched.
  rewrite execute_encoding_run.
  destruct (find_final svc (polled w) (S fuel)) as [i|] eqn:F; cbv zeta; cbn [fst snd].
  - rewrite (events_since_app _ _ (trace w) _ w eq_refl).
    apply find_final_Some in F. destruct F as (_ & Hfin & _).
    rewrite polls_execute_events by apply polls_report_events.
    rewrite printed_lines_execute_events.
    unfold report_result, report_events.
    destruct (status_is (status_response svc (polled w + i)) ERROR) eqn:E.
    + split; [reflexivity|]. exists i. split; [reflexivity|].
      split; [now apply status_is_iff|apply printed_lines_messages].
    + exists i. split; [reflexivity|]. split; [|reflexivity].
      apply status_is_iff. unfold is_final in Hfin. rewrite E, orb_false_r in Hfin.
      exact Hfin.
  - rewrite (events_since_app _ _ (trace w) _ w eq_refl).
    rewrite <- (app_nil_r (polls_events svc encoding (polled w) (S fuel))).
    rewrite polls_execute_events by reflexivity.
    rewrite printed_lines_execute_events.
    split; [reflexivity|]. split; [reflexivity|].
    intros j Hj. apply (proj1 (find_final_None svc (S fuel) (polled w)) F j). lia.
Qed.

(** The events of any run of [_execute_encoding]: the start request, then
    polls in a row, then printed lines. *)
Lemma execute_encoding_shape (svc : Service) (fuel : nat) (encoding : string)
    (w : World) :
  exists n tail,
    events_since w (snd (_execute_encoding svc fuel encoding w)) =
      Call (EncodingsStart encoding)
      :: polls_events svc encoding (polled w) (S n) ++ tail /\
    Forall (fun e => exists t, e = Print (Line t)) tail /\
    polled (snd (_execute_encoding svc fuel encoding w)) = polled w + S n /\
    created (snd (_execute_encoding svc fuel encoding w)) = created w.
Proof.
  rewrite execute_encoding_run.
  destruct (find_final svc (polled w) (S fuel)) as [i|]; cbv zeta; cbn [snd].
  - exists i, (report_events (status_response svc (polled w + i))).
    rewrite (events_since_app _ _ (trace w) _ w eq_refl).
    split; [reflexivity|]. split; [|split; reflexivity].
    unfold report_events. destruct (status_is _ ERROR).
    + apply Forall_map, Forall_forall. intros m _. now eexists.
    + constructor; [now eexists|constructor].
  - exists fuel, [].
    rewrite (events_since_app _ _ (trace w) _ w eq_refl), app_nil_r.
    split; [reflexivity|]. split; [constructor|split; reflexivity].
Qed.

Lemma lines_only (tail : list Event) :
  Forall (fun e => exists t, e = Print (Line t)) tail ->
  polls tail = 0 /\ slept tail = 0%Z /\ filter is_sleep tail = [] /\
  status_lines tail = [] /\ filter is_start_request tail = [] /\
  Forall (fun e => match e with Call _ => False | _ => True end) tail.
Proof.
  induction 1 as [|e tail [t ->] _ IH]; [repeat split; constructor|].
  destruct IH as (H1 & H2 & H3 & H4 & H5 & H6).
  repeat split; cbn; auto.
Qed.

Lemma slept_app (l1 l2 : list Event) : slept (l1 ++ l2) = (slept l1 + slept l2)%Z.
Proof.
  induction l1 as [|e l1 IH]; [reflexivity|].
  cbn [app]. unfold slept in *. cbn [fold_right]. rewrite IH.
  destruct e; lia.
Qed.

Lemma slept_polls_events (svc : Service) (encoding : string) (n : nat) :
  forall k, slept (polls_events svc encoding k n) = (5 * Z.of_nat n)%Z.
Proof.
  induction n as [|n IH]; intros k; [reflexivity|].
  rewrite polls_events_S, slept_app, IH. unfold poll_events, slept. cbn [fold_right]. lia.
Qed.

Lemma sleeps_polls_events (svc : Service) (encoding : string) (n : nat) :
  forall k, filter is_sleep (polls_events svc encoding k n) = repeat (Sleep 5) n.
Proof.
  induction n as [|n IH]; intros k; [reflexivity|].
  rewrite polls_events_S, filter_app, IH. reflexivity.
Qed.

(** X7: in any run of [_execute_encoding] there is one sleep of 5 per status
    request and no other sleep: the time slept is 5 times the number of
    polls. *)
Theorem execute_encoding_slept (svc : Service) (fuel : nat) (encoding : string)
    (w : World) :
  let new := events_since w (snd (_execute_encoding svc fuel encoding w)) in
  filter is_sleep new = repeat (Sleep 5) (polls new) /\
  slept new = (5 * Z.of_nat (polls new))%Z.
Proof.
  intros new. subst new.
  destruct (execute_encoding_shape svc fuel encoding w) as (n & tail & -> & Htail & _).
  destruct (lines_only tail Htail) as (Hp & Hs & Hf & _).
  rewrite (polls_execute_events svc encoding (polled w) (S n) tail Hp).
  split.
  - change (filter is_sleep (polls_events svc encoding (polled w) (S n) ++ tail)
            = repeat (Sleep 5) (S n)).
    now rewrite filter_app, Hf, app_nil_r, sleeps_polls_events.
  - change (slept (polls_events svc encoding (polled w) (S n) ++ tail)
            = (5 * Z.of_nat (S n))%Z).
    rewrite slept_app, Hs, slept_polls_events. lia.
Qed.

Lemma status_requests_polls_events (svc : Service) (encoding : string) (n : nat) :
  forall k,
    Forall (fun e => match e with Call c => c = EncodingsStatus encoding | _ => True end)
           (polls_events svc encoding k n).
Proof.
  induction n as [|n IH]; intros k; [constructor|].
  rewrite polls_events_S. apply Forall_app. split; [|apply IH].
  repeat constructor.
Qed.

Lemma starts_polls_events (svc : Service) (encoding : string) (n : nat) :
  forall k, filter is_start_request (polls_events svc encoding k n) = [].
Proof. induction n as [|n IH]; intros k; [reflexivity|]. rewrite polls_events_S. apply IH. Qed.

(** X8: a run of [_execute_encoding] creates no resource.  Its first event
    is the start request for the encoding given; it sends no other start
    request, and every other request it sends is a status request for that
    encoding. *)
Theorem execute_encoding_calls (svc : Service) (fuel : nat) (encoding : string)
    (w : World) :
  let w' := snd (_execute_encoding svc fuel encoding w) in
  let new := events_since w w' in
  created w' = created w /\
  creations new = [] /\
  length (filter is_start_request new) = 1 /\
  exists rest,
    new = Call (EncodingsStart encoding) :: rest /\
    Forall (fun e => match e with Call c => c = EncodingsStatus encoding | _ => True end)
           rest.
Proof.
  intros w' new. subst new w'.
  destruct (execute_encoding_events svc fuel encoding w) as (tail0 & Htr & Hlife).
  destruct (execute_encoding_shape svc fuel encoding w)
    as (n & tail & Hnew & Htail & _ & Hcreated).
  destruct (lines_only tail Htail) as (_ & _ & _ & _ & Hstart & Hnocall).
  split; [exact Hcreated|]. split.
  - unfold events_since. rewrite Htr, skipn_app, skipn_all, Nat.sub_diag.
    apply (lifecycle_creates_nothing tail0 Hlife).
  - rewrite Hnew. split.
    + cbn [filter is_start_request]. rewrite filter_app, Hstart, starts_polls_events.
      reflexivity.
    + eexists. split; [reflexivity|]. apply Forall_app. split.
      * apply status_requests_polls_events.
      * eapply Forall_impl; [|exact Hnocall]. intros [c| |]; [contradiction|trivial|trivial].
Qed.

Lemma status_lines_polls_events (svc : Service) (encoding : string) (n : nat) :
  forall k,
    status_lines (polls_events svc encoding k n) =
      map (fun i => (status (status_response svc i), progress (status_response svc i)))
          (seq k n).
Proof.
  induction n as [|n IH]; intros k; [reflexivity|].
  rewrite polls_events_S. unfold status_lines. rewrite flat_map_app.
  fold (status_lines (polls_events svc encoding (S k) n)). rewrite IH. reflexivity.
Qed.

(** X9: a run of [_execute_encoding] takes the answers of the status
    endpoint in order, one per poll, and prints one status line per poll,
    showing the status and the progress of the task that poll fetched. *)
Theorem execute_encoding_status_lines (svc : Service) (fuel : nat) (encoding : string)
    (w : World) :
  let w' := snd (_execute_encoding svc fuel encoding w) in
  let new := events_since w w' in
  polled w' = polled w + polls new /\
  status_lines new =
    map (fun i => (status (status_response svc i), progress (status_response svc i)))
        (seq (polled w) (polls new)).
Proof.
  intros w' new. subst new w'.
  destruct (execute_encoding_shape svc fuel encoding w)
    as (n & tail & -> & Htail & Hpolled & _).
  destruct (lines_only tail Htail) as (Hp & _ & _ & Hsl & _).
  rewrite (polls_execute_events svc encoding (polled w) (S n) tail Hp).
  split; [exact Hpolled|].
  change (status_lines (polls_events svc encoding (polled w) (S n) ++ tail) = 
          map (fun i => (status (status_response svc i), progress (status_response svc i)))
              (seq (polled w) (S n))).
  unfold status_lines at 1. rewrite flat_map_app.
  fold (status_lines tail) (status_lines (polls_events svc encoding (polled w) (S n))).
  now rewrite Hsl, app_nil_r, status_lines_polls_events.
Qed.

(** ** More on [main] *)

Lemma execute_encoding_trace (svc : Service) (fuel : nat) (encoding : string)
    (w : World) :
  trace (snd (_execute_encoding svc fuel encoding w)) =
    trace w ++ events_since w (snd (_execute_encoding svc fuel encoding w)).
Proof.
  destruct (execute_encoding_events svc fuel encoding w) as (tail & Htr & _).
  unfold events_since. rewrite Htr, skipn_app, skipn_all, Nat.sub_diag. reflexivity.
Qed.

Lemma main_setup_world (cfg : Config) (svc : Service) :
  created (snd (main_setup cfg svc initial_world)) = 21 /\
  polled (snd (main_setup cfg svc initial_world)) = 0.
Proof. rewrite main_setup_run. split; reflexivity. Qed.

(** X10: [main] first creates its 21 resources and nothing else, then sends
    the start request for the encoding it created first; it sends one start
    request only, and creates nothing after it. *)
Theorem main_starts_once_after_setup (cfg : Config) (svc : Service) (fuel : nat) :
  let w' := snd (main cfg svc fuel initial_world) in
  exists setup rest,
    trace w' = setup ++ Call (EncodingsStart (resource_id svc 0)) :: rest /\
    length setup = 21 /\
    length (creations setup) = 21 /\
    filter is_start_request setup = [] /\
    creations rest = [] /\
    filter is_start_request rest = [] /\
    created w' = 21.
Proof.
  intros w'. subst w'. rewrite main_run.
  set (w := snd (main_setup cfg svc initial_world)).
  destruct (execute_encoding_shape svc fuel (resource_id svc 0) w)
    as (n & tail & Hnew & Htail & _ & Hcreated).
  destruct (execute_encoding_events svc fuel (resource_id svc 0) w)
    as (tail0 & Htr & Hlife).
  destruct (lines_only tail Htail) as (_ & _ & _ & _ & Hstart & _).
  exists (trace w), (polls_events svc (resource_id svc 0) (polled w) (S n) ++ tail).
  rewrite execute_encoding_trace, Hnew, Hcreated.
  split; [reflexivity|].
  assert (Hrest : creations (polls_events svc (resource_id svc 0) (polled w) (S n) ++ tail) = []).
  { apply (lifecycle_creates_nothing _). apply Forall_app. split.
    - apply lifecycle_polls_events.
    - eapply Forall_impl; [|exact Htail]. intros e [t ->]. exact I. }
  rewrite Hrest, filter_app, Hstart, starts_polls_events.
  subst w. rewrite main_setup_run. repeat split.
Qed.

Lemma under_encoding_status_requests (encoding : string) (rest : list Event) :
  Forall (fun e => match e with Call c => c = EncodingsStatus encoding | _ => True end) rest ->
  under_encoding encoding rest.
Proof.
  unfold under_encoding. apply Forall_impl. intros [c| |]; [intros ->; reflexivity|trivial|trivial].
Qed.

(** X11: every request [main] makes under an encoding (ingests, mixed
    streams, streams, the muxing, the start and the status requests) is made
    under the encoding [main] created with its first request. *)
Theorem main_under_one_encoding (cfg : Config) (svc : Service) (fuel : nat) :
  let tr := trace (snd (main cfg svc fuel initial_world)) in
  under_encoding (resource_id svc 0) tr /\
  nth_error (creations tr) 0 =
    Some (EncodingsCreate
            (mkEncoding "Audio Mapping - Stream Mapping - Multiple Mono Tracks"
               "Input with multiple mono tracks -> Output with stereo and surround tracks")).
Proof.
  intros tr. subst tr. rewrite main_run.
  set (w := snd (main_setup cfg svc initial_world)).
  destruct (execute_encoding_shape svc fuel (resource_id svc 0) w)
    as (n & tail & Hnew & Htail & _).
  destruct (lines_only tail Htail) as (_ & _ & _ & _ & _ & Hnocall).
  rewrite execute_encoding_trace, Hnew. split.
  - apply Forall_app. split.
    + subst w. rewrite main_setup_run. cbv zeta. cbn [snd trace].
      repeat (constructor; [exact I || reflexivity|]). constructor.
    + constructor; [reflexivity|]. apply Forall_app. split.
      * apply under_encoding_status_requests, status_requests_polls_events.
      * eapply Forall_impl; [|exact Hnocall]. intros [c| |]; [contradiction|trivial|trivial].
  - subst w. rewrite main_setup_run. reflexivity.
Qed.

Lemma main_trace (cfg : Config) (svc : Service) (fuel : nat) :
  exists tail,
    trace (snd (main cfg svc fuel initial_world)) =
      trace (snd (main_setup cfg svc initial_world)) ++ tail /\
    Forall lifecycle_event tail.
Proof. rewrite main_run. apply execute_encoding_events. Qed.

Lemma lifecycle_no_ingest_requests (tail : list Event) :
  Forall lifecycle_event tail -> ingest_requests tail = [].
Proof.
  induction 1 as [|e tail He _ IH]; [reflexivity|].
  destruct e as [[]| |]; cbn in He; try contradiction; exact IH.
Qed.

(** X12: [main] reads from one input and writes to one output.  All nine
    ingest requests name the HTTP input created from the configured host and
    the configured input file path; the muxing has one output, the S3 output
    created from the configured bucket and keys, readable by everyone. *)
Theorem main_one_input_one_output (cfg : Config) (svc : Service) (fuel : nat) :
  let id := resource_id svc in
  let tr := trace (snd (main cfg svc fuel initial_world)) in
  nth_error (creations tr) 1 =
    Some (InputsHttpCreate (mkHttpInput (get_http_input_host cfg))) /\
  nth_error (creations tr) 2 =
    Some (OutputsS3Create
            (mkS3Output (get_s3_output_bucket_name cfg)
               (get_s3_output_access_key cfg) (get_s3_output_secret_key cfg))) /\
  length (ingest_requests tr) = 9 /\
  Forall (fun r => iis_input_id r = id 1 /\
                   iis_input_path r =
                     get_http_input_file_path_with_multiple_mono_audio_tracks cfg)
         (ingest_requests tr) /\
  map (fun m => map (fun o => (eo_output_id o, eo_acl o)) (mux_outputs m))
      (mp4_requests tr) = [[(id 2, [mkAclEntry PUBLIC_READ])]].
Proof.
  intros id tr. subst tr.
  destruct (main_trace cfg svc fuel) as (tail & -> & Htail).
  destruct (lifecycle_creates_nothing tail Htail) as (H1 & H2 & _).
  pose proof (lifecycle_no_ingest_requests tail Htail) as H3.
  assert (Hmade : forall l, creations (l ++ tail) = creations l).
  { intros l. unfold creations at 1. rewrite flat_map_app.
    fold (creations tail) (creations l). now rewrite H1, app_nil_r. }
  assert (Hmp4 : forall l, mp4_requests (l ++ tail) = mp4_requests l).
  { intros l. unfold mp4_requests at 1. rewrite flat_map_app.
    fold (mp4_requests tail) (mp4_requests l). now rewrite H2, app_nil_r. }
  assert (Hing : forall l, ingest_requests (l ++ tail) = ingest_requests l).
  { intros l. unfold ingest_requests at 1. rewrite flat_map_app.
    fold (ingest_requests tail) (ingest_requests l). now rewrite H3, app_nil_r. }
  rewrite Hmade, Hmp4, Hing. clear.
  rewrite main_setup_run. cbv zeta. cbn [snd trace].
  split; [reflexivity|]. split; [reflexivity|]. split; [reflexivity|].
  split; [|reflexivity].
  repeat (constructor; [split; reflexivity|]). constructor.
Qed.

(** X13: [main] ends as the first final task says.  When the first final
    task the service returns is its n-th (from 0) and the loop may run n
    times, [main] has polled n + 1 times; it raises "Encoding failed" when
    that task has the status ERROR and returns otherwise. *)
Theorem main_outcome (cfg : Config) (svc : Service) (n fuel : nat) :
  is_final (status_response svc n) = true ->
  (forall j, j < n -> is_final (status_response svc j) = false) ->
  n <= fuel ->
  let run := main cfg svc fuel initial_world in
  fst run = (if status_is (status_response svc n) ERROR
             then Raised "Encoding failed" else Ok tt) /\
  polls (trace (snd run)) = S n /\
  polled (snd run) = S n.
Proof.
  intros Hfin Hmin Hle run. subst run. rewrite main_run.
  set (w := snd (main_setup cfg svc initial_world)).
  assert (Hw : polled w = 0) by apply main_setup_world.
  rewrite (execute_encoding_stops svc (resource_id svc 0) w n fuel);
    rewrite ?Hw; cbn [Nat.add]; auto.
  cbn [fst snd trace polled]. split; [reflexivity|]. split; [|reflexivity].
  rewrite polls_app, polls_execute_events by apply polls_report_events.
  subst w. rewrite main_setup_run. reflexivity.
Qed.

Lemma main_outcome_witness :
  fst (main sample_config (mkService (resource_id lettered_service) (finished_after 3))
         5 initial_world) = Ok tt /\
  polls (trace (snd (main sample_config
                       (mkService (resource_id lettered_service) (finished_after 3))
                       5 initial_world))) = 4.
Proof.
  destruct (main_outcome sample_config
              (mkService (resource_id lettered_service) (finished_after 3)) 3 5)
    as (H1 & H2 & _).
  - reflexivity.
  - intros [|[|[|j]]] Hj; [reflexivity|reflexivity|reflexivity|lia].
  - lia.
  - split; [exact H1|exact H2].
Defined.

(** ** Two assemblies in a row *)

Lemma ids_from_split (svc : Service) (k n1 n2 : nat) :
  ids_from svc k (n1 + 1 + n2) =
    ids_from svc k n1 ++ resource_id svc (k + n1) :: ids_from svc (S (k + n1)) n2.
Proof.
  unfold ids_from. rewrite <- Nat.add_assoc, seq_app, map_app. reflexivity.
Qed.

Lemma NoDup_app_disjoint {A} (l1 l2 : list A) :
  NoDup (l1 ++ l2) -> forall x, In x l1 -> ~ In x l2.
Proof.
  induction l1 as [|a l1 IH]; intros H x Hx Hx2; [contradiction|].
  inversion H as [|? ? Ha Hnd]; subst. destruct Hx as [->|Hx].
  - apply Ha, in_or_app. now right.
  - exact (IH Hnd x Hx Hx2).
Qed.

(** X14: two stream assemblies run one after the other, as [main] runs them,
    on tables whose source track indices are not negative, share no ingest.
    When the ids the service gives to the resources they
    create are pairwise distinct, no reference of the first mixed stream is a
    reference of the second, and neither holds the id of the first mixed
    stream itself. *)
Theorem assemblies_share_no_ingest (svc : Service)
    (encoding input input_file_path : string)
    (layout1 layout2 : AudioMixInputChannelLayout)
    (table1 table2 : list ChannelMappingConfig) (w : World) :
  valid_table table1 ->
  valid_table table2 ->
  NoDup (ids_from svc (created w) (length table1 + 1 + length table2)) ->
  let run1 := _create_audio_mix_input_stream svc encoding input input_file_path
                layout1 table1 w in
  let run2 := _create_audio_mix_input_stream svc encoding input input_file_path
                layout2 table2 (snd run1) in
  exists mix1 mix2,
    audio_mix_requests (events_since w (snd run2)) = [mix1; mix2] /\
    fst run1 = Ok (resource_id svc (created w + length table1)) /\
    (forall ref, In ref (mix_refs mix1) -> ~ In ref (mix_refs mix2)) /\
    ~ In (resource_id svc (created w + length table1)) (mix_refs mix1 ++ mix_refs mix2) /\
    NoDup (mix_refs mix1 ++ mix_refs mix2).
Proof.
  intros Hvalid1 Hvalid2 Hnd run1 run2. subst run2 run1.
  rewrite ids_from_split in Hnd.
  exists (mkAudioMix layout1 (assignments svc (created w) table1)),
         (mkAudioMix layout2 (assignments svc (S (created w + length table1)) table2)).
  rewrite (create_audio_mix_input_stream_run svc encoding input input_file_path
             layout1 table1 w Hvalid1).
  cbn [fst snd].
  rewrite (create_audio_mix_input_stream_run _ _ _ _ _ _ _ Hvalid2).
  cbn [snd created polled trace].
  rewrite <- app_assoc. rewrite (events_since_app _ _ (trace w) _ w eq_refl).
  unfold mix_refs. cbn [am_audio_mix_channels]. rewrite !assignments_refs.
  split.
  - unfold audio_mix_requests. rewrite !flat_map_app.
    fold (audio_mix_requests (map (fun m => Call (InputStreamsIngestCreate encoding
            (ingest_request_for input input_file_path m))) table1)).
    fold (audio_mix_requests (map (fun m => Call (InputStreamsIngestCreate encoding
            (ingest_request_for input input_file_path m))) table2)).
    rewrite !audio_mix_requests_ingest_calls. reflexivity.
  - split; [reflexivity|].
    pose proof (NoDup_remove _ _ _ Hnd) as [Hnd' Hnotin].
    split; [|split; [exact Hnotin|exact Hnd']].
    apply NoDup_app_disjoint. exact Hnd'.
Qed.

Lemma assemblies_share_no_ingest_witness :
  exists mix1 mix2,
    audio_mix_requests
      (events_since initial_world
         (snd (_create_audio_mix_input_stream lettered_service "enc" "in" "tracks.mov"
                 CL_5_1_BACK surround_map
                 (snd (_create_audio_mix_input_stream lettered_service "enc" "in"
                         "tracks.mov" CL_STEREO stereo_map initial_world)))))
      = [mix1; mix2] /\
    mix_refs mix1 = ["A"; "B"] /\
    mix_refs mix2 = ["D"; "E"; "F"; "G"; "H"; "I"] /\
    NoDup (mix_refs mix1 ++ mix_refs mix2).
Proof.
  assert (Hnd : NoDup (ids_from lettered_service (created initial_world)
                         (length stereo_map + 1 + length surround_map))).
  { vm_compute.
    repeat (constructor;
            [intros H; repeat (destruct H as [H|H]; [discriminate H|]); exact H|]).
    constructor. }
  assert (Hvalid1 : valid_table stereo_map).
  { repeat constructor; discriminate. }
  assert (Hvalid2 : valid_table surround_map).
  { repeat constructor; discriminate. }
  pose proof (assemblies_share_no_ingest lettered_service "enc" "in" "tracks.mov"
                CL_STEREO CL_5_1_BACK stereo_map surround_map initial_world
                Hvalid1 Hvalid2 Hnd) as H.
  cbv zeta in H. destruct H as (mix1 & mix2 & Hreq & _ & _ & _ & Hno).
  exists mix1, mix2. split; [exact Hreq|].
  assert (E : [mix1; mix2] =
              [mkAudioMix CL_STEREO (assignments lettered_service 0 stereo_map);
               mkAudioMix CL_5_1_BACK (assignments lettered_service 3 surround_map)]).
  { rewrite <- Hreq. reflexivity. }
  injection E as -> ->.
  split; [reflexivity|]. split; [reflexivity|]. exact Hno.
Defined.

(** Stream assembly of the stereo table against [lettered_service]: the two
    assignments, in full. *)
Lemma stream_assembly_assignments_witness :
  exists mix,
    audio_mix_requests
      (events_since initial_world
         (snd (_create_audio_mix_input_stream lettered_service
                 "enc" "in" "tracks.mov" CL_STEREO stereo_map initial_world))) = [mix] /\
    am_audio_mix_channels mix =
      [mkMixChannel "A" FRONT_LEFT [mkSourceChannel CHANNEL_NUMBER 0];
       mkMixChannel "B" FRONT_RIGHT [mkSourceChannel CHANNEL_NUMBER 0]].
Proof.
  assert (Hvalid : valid_table stereo_map).
  { repeat constructor; discriminate. }
  pose proof (stream_assembly_assignments lettered_service
                "enc" "in" "tracks.mov" CL_STEREO stereo_map initial_world Hvalid) as H.
  cbv zeta in H. destruct H as (mix & Hmix & _ & Hchannels & _).
  exists mix. split; [exact Hmix|]. rewrite Hchannels. reflexivity.
Defined.

(** ** A table with a negative source track *)

Lemma for_mapping_configs_raises (svc : Service) (encoding input input_file_path : string)
    (good : list ChannelMappingConfig) (bad : ChannelMappingConfig)
    (rest : list ChannelMappingConfig) :
  valid_table good ->
  (source_channel_number bad < 0)%Z ->
  forall (mix : AudioMixInputStream) (w : World),
    for_mapping_configs svc encoding input input_file_path (good ++ bad :: rest) mix w =
      (Raised position_error,
       mkWorld (created w + length good) (polled w)
         (trace w ++
          map (fun m => Call (InputStreamsIngestCreate encoding
                                (ingest_request_for input input_file_path m)))
              good)).
Proof.
  intros Hgood Hbad. induction Hgood as [|m good Hm _ IH]; intros mix w.
  - cbn [app for_mapping_configs length map]. unfold bind.
    unfold _create_ingest_input_stream_for_audio_track.
    rewrite (proj2 (Z.ltb_lt _ _) Hbad). unfold raise.
    rewrite app_nil_r, Nat.add_0_r. now destruct w.
  - cbn [app for_mapping_configs]. unfold bind at 1.
    unfold _create_ingest_input_stream_for_audio_track at 1. unfold create.
    rewrite (proj2 (Z.ltb_ge _ _) Hm). rewrite IH.
    cbn [created polled trace length map].
    rewrite Nat.add_succ_r. repeat rewrite <- app_assoc. reflexivity.
Qed.

(** X15: when a table has an entry with a negative source track, stream
    assembly raises the SDK's [ValueError] at the first such entry: the
    ingest requests of the entries before it have been sent, in order, and
    nothing else; no mixed stream is requested. *)
Theorem stream_assembly_negative_track (svc : Service)
    (encoding input input_file_path : string)
    (channel_layout : AudioMixInputChannelLayout)
    (good : list ChannelMappingConfig) (bad : ChannelMappingConfig)
    (rest : list ChannelMappingConfig) (w : World) :
  valid_table good ->
  (source_channel_number bad < 0)%Z ->
  let run := _create_audio_mix_input_stream svc encoding input input_file_path
               channel_layout (good ++ bad :: rest) w in
  let new := events_since w (snd run) in
  fst run = Raised position_error /\
  new = map (fun m => Call (InputStreamsIngestCreate encoding
                              (mkIngestInputStream input input_file_path AUDIO_RELATIVE
                                 (Some (source_channel_number m))))) good /\
  ingest_requests new =
    map (fun m => mkIngestInputStream input input_file_path AUDIO_RELATIVE
                    (Some (source_channel_number m))) good /\
  audio_mix_requests new = [] /\
  created (snd run) = created w + length good.
Proof.
  intros Hgood Hbad run new. subst new run.
  unfold _create_audio_mix_input_stream, build_audio_mix_input_stream, bind.
  rewrite (for_mapping_configs_raises svc encoding input input_file_path
             good bad rest Hgood Hbad).
  cbn [fst snd created]. rewrite (events_since_app _ _ (trace w) _ w eq_refl).
  split; [reflexivity|]. split; [reflexivity|].
  split; [apply ingest_requests_ingest_calls|].
  split; [apply audio_mix_requests_ingest_calls|reflexivity].
Qed.

(** The table front-left from track 0, front-right from track -1: one ingest
    request is sent, then the assembly raises. *)
Lemma stream_assembly_negative_track_witness :
  let run := _create_audio_mix_input_stream lettered_service
               "enc" "in" "tracks.mov" CL_STEREO
               [mkChannelMappingConfig FRONT_LEFT 0;
                mkChannelMappingConfig FRONT_RIGHT (-1)] initial_world in
  fst run = Raised position_error /\
  trace (snd run) =
    [Call (InputStreamsIngestCreate "enc"
             (mkIngestInputStream "in" "tracks.mov" AUDIO_RELATIVE (Some 0%Z)))].
Proof.
  assert (Hgood : valid_table [mkChannelMappingConfig FRONT_LEFT 0]).
  { repeat constructor; discriminate. }
  pose proof (stream_assembly_negative_track lettered_service
                "enc" "in" "tracks.mov" CL_STEREO
                [mkChannelMappingConfig FRONT_LEFT 0]
                (mkChannelMappingConfig FRONT_RIGHT (-1)) [] initial_world
                Hgood eq_refl) as H.
  cbv zeta in H. destruct H as (Hres & Hnew & _).
  split; [exact Hres|exact Hnew].
Defined.
